(** * httprouter: class-based routing adapters

    A shallow embedding of the three adapter modules
    [httprouter.starlette], [httprouter.litestar] and [httprouter.fastapi],
    and the properties of decoration, discovery and mounting.

    Python objects that the adapters tag, copy or assign to live in an
    explicit heap, so that aliasing between the specification attached to a
    class and the copy a mount call works on is visible in the model. *)

From Stdlib Require Import String Ascii List ZArith Lia Bool.
From stdpp Require Import base option list gmap strings fin_maps fin_sets sets.

Open Scope string_scope.
Open Scope list_scope.

(** ** The Python runtime the adapters rely on *)

Module Py.

(** *** Strings: [str.lstrip(chars)] and [str.rstrip(chars)] *)

Fixpoint in_chars (c : ascii) (chars : string) : bool :=
  match chars with
  | EmptyString => false
  | String d r => if Ascii.eqb c d then true else in_chars c r
  end.

Fixpoint lstrip (chars s : string) : string :=
  match s with
  | EmptyString => EmptyString
  | String c r => if in_chars c chars then lstrip chars r else s
  end.

Fixpoint rstrip (chars s : string) : string :=
  match s with
  | EmptyString => EmptyString
  | String c r =>
      match rstrip chars r with
      | EmptyString => if in_chars c chars then EmptyString else String c EmptyString
      | r' => String c r'
      end
  end.

(** [bool(s)] for a string: the empty string is falsy. *)
Definition truthy (s : string) : bool :=
  match s with EmptyString => false | _ => true end.

(** [n] copies of the separator, used to state slash variations. *)
Fixpoint slashes (n : nat) : string :=
  match n with O => EmptyString | S k => String "/" (slashes k) end.

(** *** Option values and [dataclasses.asdict]

    The value of an option the adapters do not interpret: an instance of a
    dataclass with its fields, a dictionary, a list or tuple, or any other
    value, which [copy.deepcopy] copies to an equal one. *)
#[local] Unset Elimination Schemes.
Inductive pyvalue : Type :=
  | PyAtom (id : nat)
  | PyInstance (cls : nat) (fields : list (string * pyvalue))
  | PyDict (items : list (string * pyvalue))
  | PyList (items : list pyvalue).
#[local] Set Elimination Schemes.

(** What [asdict] makes of a field value: a dataclass instance becomes the
    dictionary of its fields, containers are rebuilt with their elements
    converted, anything else is copied. *)
Fixpoint asdict_inner (v : pyvalue) : pyvalue :=
  match v with
  | PyAtom n => PyAtom n
  | PyInstance _ fields => PyDict (map (fun kv => (fst kv, asdict_inner (snd kv))) fields)
  | PyDict items => PyDict (map (fun kv => (fst kv, asdict_inner (snd kv))) items)
  | PyList items => PyList (map asdict_inner items)
  end.

Definition asdict_items (o : list (string * pyvalue)) : list (string * pyvalue) :=
  map (fun kv => (fst kv, asdict_inner (snd kv))) o.

(** *** Exceptions *)

Inductive exn : Type :=
  | TypeError (msg : string)
  | AttributeError (msg : string)
  | RuntimeError (msg : string)
  | GeneratorExit
  | Exception_ (id : nat).   (* any exception raised by user or host code *)

#[global] Instance exn_eq_dec : EqDecision exn.
Proof. solve_decision. Defined.

(** *** Computations over a mutable world that may raise

    State changes made before an exception is raised persist, as in Python. *)

Definition M (St A : Type) : Type := St -> (exn + A) * St.

Definition ret {St A} (a : A) : M St A := fun s => (inr a, s).
Definition raise {St A} (e : exn) : M St A := fun s => (inl e, s).
Definition bind {St A B} (m : M St A) (k : A -> M St B) : M St B :=
  fun s => match m s with
           | (inl e, s') => (inl e, s')
           | (inr a, s') => k a s'
           end.
Definition get {St} : M St St := fun s => (inr s, s).
Definition modify {St} (f : St -> St) : M St unit := fun s => (inr tt, f s).

Notation "'let!' x ':=' m 'in' k" := (bind m (fun x => k))
  (at level 10, x pattern, m at level 100, k at level 200).
Notation "'do!' m 'in' k" := (bind m (fun _ => k))
  (at level 10, m at level 100, k at level 200).

(** [for x in xs: body(x)] *)
Fixpoint for_each {St A} (xs : list A) (body : A -> M St unit) : M St unit :=
  match xs with
  | [] => ret tt
  | x :: rest => do! body x in for_each rest body
  end.

(** [[body(x) for x in xs]], effects in order. *)
Fixpoint for_collect {St A B} (xs : list A) (body : A -> M St B) : M St (list B) :=
  match xs with
  | [] => ret []
  | x :: rest => let! y := body x in let! ys := for_collect rest body in ret (y :: ys)
  end.

(** *** Objects

    A reference is a heap location.  A [func] is an object the adapters can
    tag, a function or a method or any other object that takes attributes: it
    carries the three attribute slots the adapters set, and [fn_code] stands
    for its behaviour and signature when called, which no adapter inspects.
    [OOther] is any object that carries none of the three attributes. *)

Definition loc := positive.

(** Observable effects of user code (an assignment such as
    [self.lifespan_started = True], a log line), named by a number. *)
Definition event := nat.

(** An asynchronous generator, by what it does when driven: it runs some
    effects and then returns, raises, or suspends at a [yield], from where
    it is resumed by [asend] or by an exception thrown in with [athrow]. *)
Inductive gen : Type :=
  | GReturn (t : list event)
  | GRaise (t : list event) (x : exn)
  | GYield (t : list event) (on_send : gen) (on_throw : exn -> gen).

(** What a function object does when called: an ordinary handler, an
    asynchronous generator function, or [asynccontextmanager] applied to
    another function. *)
Inductive code : Type :=
  | Plain (id : nat)
  | AsyncGenFn (body : gen)
  | AsyncCM (inner : code).

Record func : Type := mk_func {
  fn_code : code;
  route_spec_attr : option loc;      (* __route_spec__ *)
  ws_route_spec_attr : option loc;   (* __ws_route_spec__ *)
  router_lifespan_attr : bool        (* __router_lifespan__ present *)
}.

Definition plain_func (c : code) : func := mk_func c None None false.

Inductive obj (R W S : Type) : Type :=
  | OFunc (f : func)
  | ORoute (r : R)
  | OWebsocket (w : W)
  | ORouterSpec (s : S)
  | OOther.
Arguments OFunc {R W S} f.
Arguments ORoute {R W S} r.
Arguments OWebsocket {R W S} w.
Arguments ORouterSpec {R W S} s.
Arguments OOther {R W S}.

(** A router instance, as reflection sees it: the value of its
    [__router_spec__] attribute (inherited from the class) and the
    [(name, value)] pairs [inspect.getmembers] returns for it. *)
Record router : Type := mk_router {
  router_spec_attr : option loc;
  getmembers : list (string * loc)
}.

(** The world: the heap and the routing state of the host application. *)
Record world (R W S Host : Type) : Type := mk_world {
  heap : gmap loc (obj R W S);
  host : Host
}.
Arguments mk_world {R W S Host} heap host.
Arguments heap {R W S Host} w.
Arguments host {R W S Host} w.

Section Runtime.
Context {R W S Host : Type}.
Abbreviation Obj := (obj R W S).
Abbreviation World := (world R W S Host).

Definition set_heap (h : gmap loc Obj) (w : World) : World := mk_world h (host w).
Definition set_host (a : Host) (w : World) : World := mk_world (heap w) a.

(** Allocation of a new object: a location not in use. *)
Definition alloc (o : Obj) : M World loc :=
  fun w => let l := fresh (dom (heap w)) in
           (inr l, set_heap (<[l := o]> (heap w)) w).

(** Assignment to fields of a specification object, [x.field = v]. *)
Definition update_route (l : loc) (upd : R -> R) : M World unit :=
  fun w => match heap w !! l with
           | Some (ORoute r) => (inr tt, set_heap (<[l := ORoute (upd r)]> (heap w)) w)
           | _ => (inl (AttributeError "not a route specification"), w)
           end.

Definition update_router_spec (l : loc) (upd : S -> S) : M World unit :=
  fun w => match heap w !! l with
           | Some (ORouterSpec s) =>
               (inr tt, set_heap (<[l := ORouterSpec (upd s)]> (heap w)) w)
           | _ => (inl (AttributeError "not a router specification"), w)
           end.

Definition update_websocket (l : loc) (upd : W -> W) : M World unit :=
  fun w => match heap w !! l with
           | Some (OWebsocket x) =>
               (inr tt, set_heap (<[l := OWebsocket (upd x)]> (heap w)) w)
           | _ => (inl (AttributeError "not a websocket specification"), w)
           end.

Definition deref_route (l : loc) : M World R :=
  fun w => match heap w !! l with
           | Some (ORoute r) => (inr r, w)
           | _ => (inl (TypeError "not a route specification"), w)
           end.

Definition deref_websocket (l : loc) : M World W :=
  fun w => match heap w !! l with
           | Some (OWebsocket x) => (inr x, w)
           | _ => (inl (TypeError "not a websocket specification"), w)
           end.

Definition deref_router_spec (l : loc) : M World S :=
  fun w => match heap w !! l with
           | Some (ORouterSpec s) => (inr s, w)
           | _ => (inl (TypeError "not a router specification"), w)
           end.

(** [dataclasses.replace(x)] with no changes: a new instance with the same
    field values.  It raises [TypeError] on anything but a dataclass
    instance. *)
Definition replace (l : loc) : M World loc :=
  fun w => match heap w !! l with
           | Some (ORoute r) => alloc (ORoute r) w
           | Some (OWebsocket x) => alloc (OWebsocket x) w
           | Some (ORouterSpec s) => alloc (ORouterSpec s) w
           | _ => (inl (TypeError "replace() should be called on dataclass instances"), w)
           end.

(** [setattr(fn, attr, value)] on a function object. *)
Definition setattr_func (fn : loc) (upd : func -> func) : M World unit :=
  fun w => match heap w !! fn with
           | Some (OFunc f) => (inr tt, set_heap (<[fn := OFunc (upd f)]> (heap w)) w)
           | _ => (inl (AttributeError "cannot set attribute"), w)
           end.

Definition set_route_spec_attr (v : loc) (f : func) : func :=
  mk_func (fn_code f) (Some v) (ws_route_spec_attr f) (router_lifespan_attr f).
Definition set_ws_route_spec_attr (v : loc) (f : func) : func :=
  mk_func (fn_code f) (route_spec_attr f) (Some v) (router_lifespan_attr f).
Definition set_router_lifespan_attr (f : func) : func :=
  mk_func (fn_code f) (route_spec_attr f) (ws_route_spec_attr f) true.

(** [getattr(member, "__route_spec__")] when [hasattr] holds. *)
Definition route_spec_of (h : gmap loc Obj) (member : loc) : option loc :=
  match h !! member with
  | Some (OFunc f) => route_spec_attr f
  | _ => None
  end.

Definition ws_route_spec_of (h : gmap loc Obj) (member : loc) : option loc :=
  match h !! member with
  | Some (OFunc f) => ws_route_spec_attr f
  | _ => None
  end.

Definition has_router_lifespan (h : gmap loc Obj) (member : loc) : bool :=
  match h !! member with
  | Some (OFunc f) => router_lifespan_attr f
  | _ => false
  end.

(** [hasattr(member, "__route_spec__")] *)
Definition has_route_spec (h : gmap loc Obj) (member : loc) : bool :=
  match route_spec_of h member with Some _ => true | None => false end.

(** *** Discovery, shared verbatim by the three modules *)

Definition _set_route_spec (fn spec : loc) : M World unit :=
  setattr_func fn (set_route_spec_attr spec).

Definition _set_ws_route_spec (fn spec : loc) : M World unit :=
  setattr_func fn (set_ws_route_spec_attr spec).

Definition _find_router_spec (r : router) : option loc := router_spec_attr r.

Fixpoint find_tagged (tag_of : loc -> option loc) (members : list (string * loc))
  : list (loc * loc) :=
  match members with
  | [] => []
  | (_, member) :: rest =>
      match tag_of member with
      | Some spec => (member, spec) :: find_tagged tag_of rest
      | None => find_tagged tag_of rest
      end
  end.

Definition _find_routes_from_router (h : gmap loc Obj) (r : router) : list (loc * loc) :=
  find_tagged (route_spec_of h) (getmembers r).

Definition _find_websocket_routes_from_router (h : gmap loc Obj) (r : router)
  : list (loc * loc) :=
  find_tagged (ws_route_spec_of h) (getmembers r).

(** The attributes hold objects of the classes the decorators attach: a
    route specification under [__route_spec__], a websocket specification
    under [__ws_route_spec__]. *)
Definition is_route (h : gmap loc Obj) (l : loc) : bool :=
  match h !! l with Some (ORoute _) => true | _ => false end.

Definition is_websocket (h : gmap loc Obj) (l : loc) : bool :=
  match h !! l with Some (OWebsocket _) => true | _ => false end.

Definition specs_well_typed (h : gmap loc Obj) (r : router) : bool :=
  forallb (fun e => is_route h e.2) (_find_routes_from_router h r)
  && forallb (fun e => is_websocket h e.2) (_find_websocket_routes_from_router h r).

End Runtime.

Definition not_decorated : exn :=
  TypeError "router classes must be decorated with @router decorator".

End Py.

(** ** httprouter.starlette *)

Module Starlette.
Import Py.

Inductive Method : Type := M_GET | M_POST | M_PUT | M_PATCH | M_DELETE.

(** A [starlette.middleware.Middleware] value; the adapter never looks
    inside one. *)
Definition Middleware := nat.

Record WEBSOCKET : Type := mk_WEBSOCKET {
  ws_path : string;
  ws_name : option string
}.

Record ROUTE : Type := mk_ROUTE {
  path : string;
  include_in_schema : bool;
  name : option string;
  middleware : option (list Middleware);
  methods : list Method
}.

Record RouterSpec : Type := mk_RouterSpec {
  prefix : string;
  spec_middleware : option (list Middleware)
}.

(** Keyword arguments of the dataclass constructors; [None] is an
    argument left out, which takes the field's default. *)
Record route_kwargs : Type := mk_route_kwargs {
  kw_include_in_schema : option bool;
  kw_name : option string;
  kw_middleware : option (list Middleware);
  kw_methods : option (list Method)
}.

Definition no_kwargs : route_kwargs := mk_route_kwargs None None None None.

Definition ROUTE_init (default_methods : list Method) (p : string) (kw : route_kwargs)
  : ROUTE :=
  {| path := p;
     include_in_schema := default true (kw_include_in_schema kw);
     name := kw_name kw;
     middleware := kw_middleware kw;
     methods := default default_methods (kw_methods kw) |}.

Definition GET := ROUTE_init [M_GET].
Definition POST := ROUTE_init [M_POST].
Definition PUT := ROUTE_init [M_PUT].
Definition PATCH := ROUTE_init [M_PATCH].
Definition DELETE := ROUTE_init [M_DELETE].

(** The decorator class that stands for each HTTP method. *)
Definition decorator_of (m : Method) : string -> route_kwargs -> ROUTE :=
  match m with
  | M_GET => GET | M_POST => POST | M_PUT => PUT
  | M_PATCH => PATCH | M_DELETE => DELETE
  end.

(** Registered routes of the host: [Route] and [WebSocketRoute] objects,
    built from the endpoint and the fields of its specification. *)
Inductive BaseRoute : Type :=
  | Route (endpoint : loc) (kwargs : ROUTE)
  | WebSocketRoute (endpoint : loc) (kwargs : WEBSOCKET).

(** [app.routes] *)
Definition App := list BaseRoute.

Abbreviation Obj := (obj ROUTE WEBSOCKET RouterSpec).
Abbreviation World := (world ROUTE WEBSOCKET RouterSpec App).

(** [ROUTE.__call__] and [WEBSOCKET.__call__] *)
Definition ROUTE_call (self fn : loc) : M World loc :=
  do! _set_route_spec fn self in ret fn.

Definition WEBSOCKET_call (self fn : loc) : M World loc :=
  do! _set_ws_route_spec fn self in ret fn.

(** [@GET("/x", ...) def fn]: the decorator instance is built, then called
    on the function. *)
Definition decorate (spec : ROUTE) (fn : loc) : M World loc :=
  let! self := alloc (ORoute spec) in ROUTE_call self fn.

Record RouterMembers : Type := mk_RouterMembers {
  spec : loc;
  routes : list (loc * loc);
  websocket_routes : list (loc * loc)
}.

Definition inspect_router (r : router) : M World RouterMembers :=
  fun w =>
    match _find_router_spec r with
    | None => raise not_decorated w
    | Some s =>
        ret {| spec := s;
               routes := _find_routes_from_router (heap w) r;
               websocket_routes := _find_websocket_routes_from_router (heap w) r |} w
    end.

Definition concat {T} (a b : option (list T)) : option (list T) :=
  match a, b with
  | None, None => None
  | None, _ => b
  | _, None => a
  | Some a', Some b' => Some (a' ++ b')
  end.

Definition spec_path (s : ROUTE + WEBSOCKET) : string :=
  match s with inl r => path r | inr x => ws_path x end.

Definition _get_path (mount_prefix : string) (router_spec : RouterSpec)
    (s : ROUTE + WEBSOCKET) : string :=
  let mount_prefix := rstrip "/" mount_prefix in
  let router_prefix := lstrip "/" (rstrip "/" (prefix router_spec)) in
  let p := lstrip "/" (spec_path s) in
  if negb (truthy router_prefix)
  then mount_prefix +:+ "/" +:+ p
  else mount_prefix +:+ "/" +:+ router_prefix +:+ "/" +:+ p.

Definition set_middleware (v : option (list Middleware)) (r : ROUTE) : ROUTE :=
  mk_ROUTE (path r) (include_in_schema r) (name r) v (methods r).
Definition set_path (v : string) (r : ROUTE) : ROUTE :=
  mk_ROUTE v (include_in_schema r) (name r) (middleware r) (methods r).
Definition set_ws_path (v : string) (x : WEBSOCKET) : WEBSOCKET :=
  mk_WEBSOCKET v (ws_name x).

(** [app.routes.append(route)] *)
Definition routes_append (r : BaseRoute) : M World unit :=
  modify (fun w => set_host (host w ++ [r]) w).

Definition mount_route (mount_prefix : string) (spec : loc) (entry : loc * loc)
  : M World unit :=
  let '(fn, route_spec) := entry in
  let! route_spec := replace route_spec in
  let! s := deref_router_spec spec in
  let! r := deref_route route_spec in
  do! update_route route_spec (set_middleware (concat (spec_middleware s) (middleware r))) in
  let! r := deref_route route_spec in
  do! update_route route_spec (set_path (_get_path mount_prefix s (inl r))) in
  let! kwargs := deref_route route_spec in
  routes_append (Route fn kwargs).

Definition mount_websocket (mount_prefix : string) (spec : loc) (entry : loc * loc)
  : M World unit :=
  let '(ws_fn, ws_spec) := entry in
  let! ws_spec := replace ws_spec in
  let! s := deref_router_spec spec in
  let! x := deref_websocket ws_spec in
  do! update_websocket ws_spec (set_ws_path (_get_path mount_prefix s (inr x))) in
  let! kwargs := deref_websocket ws_spec in
  routes_append (WebSocketRoute ws_fn kwargs).

Definition mount_router (r : router) (mount_prefix : string) : M World unit :=
  let! members := inspect_router r in
  let! spec := replace (spec members) in
  do! for_each (routes members) (mount_route mount_prefix spec) in
  for_each (websocket_routes members) (mount_websocket mount_prefix spec).

End Starlette.

(** ** httprouter.litestar *)

Module Litestar.
Import Py.

Inductive HttpMethod : Type := M_GET | M_POST | M_PUT | M_PATCH | M_DELETE.

(** [Method]: one HTTP method or a sequence of them. *)
Inductive Method : Type :=
  | OneMethod (m : HttpMethod)
  | Methods (ms : list HttpMethod).

(** [path: str | Sequence[str]] *)
Inductive Path : Type :=
  | OnePath (p : string)
  | Paths (ps : list string).

(** A [ResponseSpec], which the adapter hands over as it is, and the value
    of any option it does not interpret. *)
Definition ResponseSpec := nat.
Definition Opaque := pyvalue.

Record WEBSOCKET : Type := mk_WEBSOCKET {
  ws_path : string;
  ws_name : option string
}.

(** The fields [mount_router] reads or writes, and [other] for the remaining
    keyword options (guards, dto, cache, ...), keyed by option name. *)
Record ROUTE : Type := mk_ROUTE {
  path : Path;
  http_method : Method;
  name : option string;
  status_code : option Z;
  include_in_schema : option bool;       (* None is lt.Empty *)
  responses : option (gmap Z ResponseSpec);
  tags : option (list string);
  other : list (string * Opaque)
}.

Record RouterSpec : Type := mk_RouterSpec {
  prefix : string;
  spec_include_in_schema : option bool;  (* None is lt.Empty *)
  spec_tags : option (list string);
  spec_responses : option (gmap Z ResponseSpec);
  spec_other : list (string * Opaque)
}.

Record route_kwargs : Type := mk_route_kwargs {
  kw_http_method : option Method;
  kw_name : option string;
  kw_status_code : option Z;
  kw_include_in_schema : option bool;
  kw_responses : option (gmap Z ResponseSpec);
  kw_tags : option (list string);
  kw_other : list (string * Opaque)
}.

Definition no_kwargs : route_kwargs := mk_route_kwargs None None None None None None [].

Definition ROUTE_init (default_method : Method) (p : Path) (kw : route_kwargs) : ROUTE :=
  {| path := p;
     http_method := default default_method (kw_http_method kw);
     name := kw_name kw;
     status_code := kw_status_code kw;
     include_in_schema := kw_include_in_schema kw;
     responses := kw_responses kw;
     tags := kw_tags kw;
     other := kw_other kw |}.

Definition GET := ROUTE_init (OneMethod M_GET).
Definition POST := ROUTE_init (OneMethod M_POST).
Definition PUT := ROUTE_init (OneMethod M_PUT).
Definition PATCH := ROUTE_init (OneMethod M_PATCH).
Definition DELETE := ROUTE_init (OneMethod M_DELETE).

Definition decorator_of (m : HttpMethod) : Path -> route_kwargs -> ROUTE :=
  match m with
  | M_GET => GET | M_POST => POST | M_PUT => PUT
  | M_PATCH => PATCH | M_DELETE => DELETE
  end.

(** What the host receives.  [RouterOptions] is [asdict(spec)] after the
    keys [responses] and [prefix] are deleted. *)
Record RouterOptions : Type := mk_RouterOptions {
  opt_include_in_schema : option bool;
  opt_tags : option (list string);
  opt_other : list (string * Opaque)
}.

Inductive Handler : Type :=
  | HTTPRouteHandler (fn : loc) (kwargs : ROUTE)
  | WebsocketRouteHandler (fn : loc) (p : string) (nm : option string).

Record LitestarRouter : Type := mk_LitestarRouter {
  router_path : string;
  options : RouterOptions;
  route_handlers : list Handler
}.

(** The routers registered on the application, in order. *)
Definition App := list LitestarRouter.

Abbreviation Obj := (obj ROUTE WEBSOCKET RouterSpec).
Abbreviation World := (world ROUTE WEBSOCKET RouterSpec App).

Definition ROUTE_call (self fn : loc) : M World loc :=
  do! _set_route_spec fn self in ret fn.

Definition WEBSOCKET_call (self fn : loc) : M World loc :=
  do! _set_ws_route_spec fn self in ret fn.

Definition decorate (spec : ROUTE) (fn : loc) : M World loc :=
  let! self := alloc (ORoute spec) in ROUTE_call self fn.

Record RouterMembers : Type := mk_RouterMembers {
  spec : loc;
  routes : list (loc * loc);
  websocket_routes : list (loc * loc)
}.

Definition inspect_router (r : router) : M World RouterMembers :=
  fun w =>
    match _find_router_spec r with
    | None => raise not_decorated w
    | Some s =>
        ret {| spec := s;
               routes := _find_routes_from_router (heap w) r;
               websocket_routes := _find_websocket_routes_from_router (heap w) r |} w
    end.

(** [{**a, **b}]: the keys of both, the value of [b] where both have one. *)
Definition merge {V} (a b : option (gmap Z V)) : option (gmap Z V) :=
  match a, b with
  | None, None => None
  | None, _ => b
  | _, None => a
  | Some a', Some b' => Some (b' ∪ a')
  end.

(** [list({*a, *b})]: the elements of the set, each once, in an order the
    set implementation chooses. *)
Definition concat_unique (a b : option (list string)) : option (list string) :=
  match a, b with
  | None, None => None
  | None, _ => b
  | _, None => a
  | Some a', Some b' => Some (elements (list_to_set a' ∪ list_to_set b' : gset string))
  end.

Definition set_spec_responses (v : option (gmap Z ResponseSpec)) (s : RouterSpec)
  : RouterSpec :=
  mk_RouterSpec (prefix s) (spec_include_in_schema s) (spec_tags s) v (spec_other s).
Definition set_spec_tags (v : option (list string)) (s : RouterSpec) : RouterSpec :=
  mk_RouterSpec (prefix s) (spec_include_in_schema s) v (spec_responses s) (spec_other s).
Definition set_prefix (v : string) (s : RouterSpec) : RouterSpec :=
  mk_RouterSpec v (spec_include_in_schema s) (spec_tags s) (spec_responses s) (spec_other s).
Definition set_spec_include_in_schema (v : option bool) (s : RouterSpec) : RouterSpec :=
  mk_RouterSpec (prefix s) v (spec_tags s) (spec_responses s) (spec_other s).
Definition set_responses (v : option (gmap Z ResponseSpec)) (r : ROUTE) : ROUTE :=
  mk_ROUTE (path r) (http_method r) (name r) (status_code r) (include_in_schema r)
           v (tags r) (other r).

(** The prefix join of [mount_router]. *)
Definition join_prefix (mount_prefix router_prefix : string) : string :=
  rstrip "/" mount_prefix +:+ "/" +:+ lstrip "/" router_prefix.

(** [asdict(spec)] less the keys [responses] and [prefix]: the flag and the
    tags come back equal, the other options converted. *)
Definition asdict_options (s : RouterSpec) : RouterOptions :=
  mk_RouterOptions (spec_include_in_schema s) (spec_tags s) (asdict_items (spec_other s)).

(** [asdict(route_spec)].  Its [responses] entry is replaced at once by
    [spec.responses], so the conversion of that entry is left out. *)
Definition asdict_route (r : ROUTE) : ROUTE :=
  mk_ROUTE (path r) (http_method r) (name r) (status_code r) (include_in_schema r)
           (responses r) (tags r) (asdict_items (other r)).

Definition mount_route (spec : loc) (entry : loc * loc) : M World Handler :=
  let '(fn, route_spec) := entry in
  let! route_spec := replace route_spec in
  let! s := deref_router_spec spec in
  let! r := deref_route route_spec in
  do! update_route route_spec (set_responses (merge (spec_responses s) (responses r))) in
  let! r := deref_route route_spec in
  let options := asdict_route r in
  let! s := deref_router_spec spec in
  let options := set_responses (spec_responses s) options in
  ret (HTTPRouteHandler fn options).

Definition mount_websocket (entry : loc * loc) : M World Handler :=
  let '(ws_fn, ws_spec) := entry in
  let! x := deref_websocket ws_spec in
  ret (WebsocketRouteHandler ws_fn (ws_path x) (ws_name x)).

(** [app.register(api_router)] *)
Definition app_register (r : LitestarRouter) : M World unit :=
  modify (fun w => set_host (host w ++ [r]) w).

Definition mount_router (r : router) (mount_prefix : string)
    (mount_responses : option (gmap Z ResponseSpec))
    (mount_tags : option (list string))
    (mount_include_in_schema : option bool) : M World unit :=
  let! members := inspect_router r in
  let! spec := replace (spec members) in
  let! s := deref_router_spec spec in
  do! update_router_spec spec
        (set_spec_responses (merge mount_responses (spec_responses s))) in
  let! s := deref_router_spec spec in
  do! update_router_spec spec (set_spec_tags (concat_unique mount_tags (spec_tags s))) in
  do! (if truthy mount_prefix
       then let! s := deref_router_spec spec in
            update_router_spec spec (set_prefix (join_prefix mount_prefix (prefix s)))
       else ret tt) in
  do! (match mount_include_in_schema with
       | Some _ => update_router_spec spec (set_spec_include_in_schema mount_include_in_schema)
       | None => ret tt
       end) in
  let! s := deref_router_spec spec in
  let options := asdict_options s in
  let! http := for_collect (routes members) (mount_route spec) in
  let! ws := for_collect (websocket_routes members) mount_websocket in
  app_register (mk_LitestarRouter (prefix s) options (http ++ ws)).

End Litestar.

(** ** Asynchronous generators and [contextlib.asynccontextmanager] *)

Module Async.
Import Py.

Definition prepend (t : list event) (g : gen) : gen :=
  match g with
  | GReturn t' => GReturn (t ++ t')
  | GRaise t' x => GRaise (t ++ t') x
  | GYield t' ks kt => GYield (t ++ t') ks kt
  end.

(** Statements of a generator body. *)
Definition pass : gen := GReturn [].
Definition effect (e : event) : gen := GReturn [e].
Definition yield_ : gen := GYield [] (GReturn []) (fun x => GRaise [] x).
Definition raise_ (x : exn) : gen := GRaise [] x.

Fixpoint seq (g1 g2 : gen) : gen :=
  match g1 with
  | GReturn t => prepend t g2
  | GRaise t x => GRaise t x
  | GYield t ks kt => GYield t (seq ks g2) (fun x => seq (kt x) g2)
  end.

(** [try: body finally: fin] *)
Fixpoint try_finally (body fin : gen) : gen :=
  match body with
  | GReturn t => prepend t fin
  | GRaise t x => prepend t (seq fin (raise_ x))
  | GYield t ks kt => GYield t (try_finally ks fin) (fun x => try_finally (kt x) fin)
  end.

(** A generator suspended at a [yield]. *)
Record suspended : Type := mk_suspended {
  on_send : gen;
  on_throw : exn -> gen
}.

(** [gen.aclose()]: [GeneratorExit] is thrown in at the [yield]. *)
Definition aclose (s : suspended) : list event * option exn :=
  match on_throw s GeneratorExit with
  | GReturn t => (t, None)
  | GRaise t x => (t, if decide (x = GeneratorExit) then None else Some x)
  | GYield t _ _ => (t, Some (RuntimeError "async generator ignored GeneratorExit"))
  end.

(** [raise RuntimeError(msg)] with [gen.aclose()] in the [finally]. *)
Definition did_not_stop (msg : string) (t : list event) (s : suspended)
  : list event * (exn + bool) :=
  match aclose s with
  | (t', Some x) => (t ++ t', inl x)
  | (t', None) => (t ++ t', inl (RuntimeError msg))
  end.

(** [__aenter__] of the context manager over a generator. *)
Definition aenter (g : gen) : list event * (exn + suspended) :=
  match g with
  | GYield t ks kt => (t, inr (mk_suspended ks kt))
  | GReturn t => (t, inl (RuntimeError "generator didn't yield"))
  | GRaise t x => (t, inl x)
  end.

(** [__aexit__]: with [None] the generator is resumed, with an exception the
    exception is thrown in at the [yield].  The boolean result says whether
    the exception is suppressed. *)
Definition aexit (s : suspended) (exc : option exn) : list event * (exn + bool) :=
  match exc with
  | None =>
      match on_send s with
      | GReturn t => (t, inr false)
      | GRaise t x => (t, inl x)
      | GYield t ks kt => did_not_stop "generator didn't stop" t (mk_suspended ks kt)
      end
  | Some value =>
      match on_throw s value with
      | GReturn t => (t, inr true)
      | GRaise t x => (t, if decide (x = value) then inr false else inl x)
      | GYield t ks kt =>
          did_not_stop "generator didn't stop after athrow()" t (mk_suspended ks kt)
      end
  end.

(** The block of [async with cm: body], once [cm] is entered. *)
Fixpoint with_block (s : suspended) (body : gen) : gen :=
  match body with
  | GReturn t =>
      match aexit s None with
      | (t', inl x) => GRaise (t ++ t') x
      | (t', inr _) => GReturn (t ++ t')
      end
  | GRaise t x =>
      match aexit s (Some x) with
      | (t', inl x') => GRaise (t ++ t') x'
      | (t', inr true) => GReturn (t ++ t')
      | (t', inr false) => GRaise (t ++ t') x
      end
  | GYield t ks kt => GYield t (with_block s ks) (fun x => with_block s (kt x))
  end.

(** [async with cm: body], [cm] being the context manager over the
    generator [g]. *)
Definition async_with (g : gen) (body : gen) : gen :=
  match aenter g with
  | (t, inl x) => GRaise t x
  | (t, inr s) => prepend t (with_block s body)
  end.

(** Calling a function that should return an asynchronous context manager:
    the generator the manager drives.  Only [asynccontextmanager] applied to
    a generator function gives one. *)
Definition call_cm (c : code) : gen :=
  match c with
  | AsyncCM (AsyncGenFn g) => g
  | _ => GRaise [] (TypeError "object is not an asynchronous context manager")
  end.

(** The host runs its application inside the lifespan context:
    [async with lifespan_context(app): serve].  The serving body performs
    [served] and ends normally or with an exception; the result is the whole
    trace and the exception that leaves the block, if any. *)
Definition lifecycle (lifespan_context : code) (served : list event) (failure : option exn)
  : list event * option exn :=
  let body := match failure with None => GReturn served | Some x => GRaise served x end in
  match async_with (call_cm lifespan_context) body with
  | GReturn t => (t, None)
  | GRaise t x => (t, Some x)
  | GYield t _ _ => (t, Some (RuntimeError "unreachable: the body does not yield"))
  end.

End Async.

(** ** httprouter.fastapi *)

Module FastAPI.
Import Py.

Inductive Method : Type := M_GET | M_POST | M_PUT | M_PATCH | M_DELETE.

Definition Opaque := pyvalue.

Record WEBSOCKET : Type := mk_WEBSOCKET {
  ws_path : string;
  ws_name : option string
}.

(** [other] holds the keyword options the adapter only passes on
    (response_model, summary, dependencies, ...), keyed by option name. *)
Record ROUTE : Type := mk_ROUTE {
  path : string;
  status_code : option Z;
  tags : option (list string);
  responses : option (gmap Z Opaque);
  include_in_schema : bool;
  name : option string;
  methods : list Method;
  other : list (string * Opaque)
}.

Record RouterSpec : Type := mk_RouterSpec {
  prefix : string;
  spec_tags : option (list string);
  spec_responses : option (gmap Z Opaque);
  spec_deprecated : option bool;
  spec_include_in_schema : bool;
  spec_other : list (string * Opaque)
}.

Record route_kwargs : Type := mk_route_kwargs {
  kw_status_code : option Z;
  kw_tags : option (list string);
  kw_responses : option (gmap Z Opaque);
  kw_include_in_schema : option bool;
  kw_name : option string;
  kw_methods : option (list Method);
  kw_other : list (string * Opaque)
}.

Definition no_kwargs : route_kwargs := mk_route_kwargs None None None None None None [].

Definition ROUTE_init (default_methods : list Method) (p : string) (kw : route_kwargs)
  : ROUTE :=
  {| path := p;
     status_code := kw_status_code kw;
     tags := kw_tags kw;
     responses := kw_responses kw;
     include_in_schema := default true (kw_include_in_schema kw);
     name := kw_name kw;
     methods := default default_methods (kw_methods kw);
     other := kw_other kw |}.

Definition GET := ROUTE_init [M_GET].
Definition POST := ROUTE_init [M_POST].
Definition PUT := ROUTE_init [M_PUT].
Definition PATCH := ROUTE_init [M_PATCH].
Definition DELETE := ROUTE_init [M_DELETE].

Definition decorator_of (m : Method) : string -> route_kwargs -> ROUTE :=
  match m with
  | M_GET => GET | M_POST => POST | M_PUT => PUT
  | M_PATCH => PATCH | M_DELETE => DELETE
  end.

(** What the host receives. *)
Inductive APIRoute : Type :=
  | api_route (endpoint : loc) (kwargs : ROUTE)
  | api_websocket_route (endpoint : loc) (kwargs : WEBSOCKET).

Record APIRouter : Type := mk_APIRouter {
  lifespan_context : option code;
  router_kwargs : RouterSpec;
  api_routes : list APIRoute
}.

(** The keyword arguments of [mount_router], handed to [include_router]. *)
Record include_kwargs : Type := mk_include_kwargs {
  inc_prefix : string;
  inc_tags : option (list string);
  inc_responses : option (gmap Z Opaque);
  inc_deprecated : option bool;
  inc_include_in_schema : bool;
  inc_other : list (string * Opaque)
}.

(** The [include_router] calls the application received, in order. *)
Definition App := list (APIRouter * include_kwargs).

Abbreviation Obj := (obj ROUTE WEBSOCKET RouterSpec).
Abbreviation World := (world ROUTE WEBSOCKET RouterSpec App).

Definition ROUTE_call (self fn : loc) : M World loc :=
  do! _set_route_spec fn self in ret fn.

Definition WEBSOCKET_call (self fn : loc) : M World loc :=
  do! _set_ws_route_spec fn self in ret fn.

Definition decorate (spec : ROUTE) (fn : loc) : M World loc :=
  let! self := alloc (ORoute spec) in ROUTE_call self fn.

Definition _set_router_lifespan_marker (lifespan : loc) : M World unit :=
  setattr_func lifespan set_router_lifespan_attr.

(** [LIFESPAN]: [asynccontextmanager(method)] is a new function object, which
    [functools.wraps] gives the attributes of [method]; it is then marked. *)
Definition LIFESPAN (method : loc) : M World loc :=
  fun w =>
    match heap w !! method with
    | Some (OFunc f) =>
        (let! wrapped := alloc (OFunc (mk_func (AsyncCM (fn_code f)) (route_spec_attr f)
                                               (ws_route_spec_attr f)
                                               (router_lifespan_attr f))) in
         do! _set_router_lifespan_marker wrapped in
         ret wrapped) w
    | _ => (inl (TypeError "not a function"), w)
    end.

Fixpoint find_lifespan_in (h : gmap loc Obj) (members : list (string * loc)) : option loc :=
  match members with
  | [] => None
  | (_, member) :: rest =>
      if has_router_lifespan h member then Some member else find_lifespan_in h rest
  end.

Definition _find_lifespan (h : gmap loc Obj) (r : router) : option loc :=
  find_lifespan_in h (getmembers r).

Record RouterMembers : Type := mk_RouterMembers {
  spec : loc;
  routes : list (loc * loc);
  websocket_routes : list (loc * loc);
  lifespan : option loc
}.

Definition inspect_router (r : router) : M World RouterMembers :=
  fun w =>
    match _find_router_spec r with
    | None => raise not_decorated w
    | Some s =>
        ret {| spec := s;
               routes := _find_routes_from_router (heap w) r;
               websocket_routes := _find_websocket_routes_from_router (heap w) r;
               lifespan := _find_lifespan (heap w) r |} w
    end.

(** The behaviour of the function object at [l] when called. *)
Definition callable (h : gmap loc Obj) (l : loc) : code :=
  match h !! l with
  | Some (OFunc f) => fn_code f
  | _ => Plain 0
  end.

(** The body of [wrapper]: [async with lifespan(): yield None]. *)
Definition wrapper (lifespan : code) : gen :=
  Async.async_with (Async.call_cm lifespan) Async.yield_.

Definition _make_lifespan_for_router (lifespan : option code) : option code :=
  match lifespan with
  | None => None
  | Some l => Some (AsyncCM (AsyncGenFn (wrapper l)))
  end.

(** [asdict(route_spec)] and [asdict(members.spec)]: strings, numbers, flags
    and lists of strings come back equal, the values of [responses] and of
    the other options converted. *)
Definition asdict_responses (m : option (gmap Z Opaque)) : option (gmap Z Opaque) :=
  match m with
  | Some m' => Some (asdict_inner <$> m')
  | None => None
  end.

Definition asdict_route (r : ROUTE) : ROUTE :=
  mk_ROUTE (path r) (status_code r) (tags r) (asdict_responses (responses r))
           (include_in_schema r) (name r) (methods r) (asdict_items (other r)).

Definition asdict_spec (s : RouterSpec) : RouterSpec :=
  mk_RouterSpec (prefix s) (spec_tags s) (asdict_responses (spec_responses s))
                (spec_deprecated s) (spec_include_in_schema s)
                (asdict_items (spec_other s)).

Definition add_api_route (entry : loc * loc) : M World APIRoute :=
  let '(fn, route_spec) := entry in
  let! r := deref_route route_spec in
  ret (api_route fn (asdict_route r)).

Definition add_api_websocket_route (entry : loc * loc) : M World APIRoute :=
  let '(ws_fn, ws_spec) := entry in
  let! kwargs := deref_websocket ws_spec in
  ret (api_websocket_route ws_fn kwargs).

(** [app.include_router(api_router, ...)] *)
Definition include_router (r : APIRouter) (kw : include_kwargs) : M World unit :=
  modify (fun w => set_host (host w ++ [(r, kw)]) w).

Definition mount_router (r : router) (kw : include_kwargs) : M World unit :=
  let! members := inspect_router r in
  let! w := get in
  let lifespan := _make_lifespan_for_router (callable (heap w) <$> lifespan members) in
  let! s := deref_router_spec (spec members) in
  let! http := for_collect (routes members) add_api_route in
  let! ws := for_collect (websocket_routes members) add_api_websocket_route in
  include_router (mk_APIRouter lifespan (asdict_spec s) (http ++ ws)) kw.

End FastAPI.

(** * Vocabulary of the properties *)

Section HeapVocabulary.
Import Py.
Context {R W S Host : Type}.
Implicit Types (w : world R W S Host).

(** Every object of the old heap is still there, unchanged, and no function
    object has appeared. *)
Definition preserved w w' : Prop :=
  (forall l o, heap w !! l = Some o -> heap w' !! l = Some o) /\
  (forall l f, heap w' !! l = Some (OFunc f) -> heap w !! l = Some (OFunc f)).

(** Decorator instances applied one after the other, each to its function:
    [pairs] lists each function with the decorator instance applied to it. *)
Definition apply_decorators (call : loc -> loc -> M (world R W S Host) loc)
    (pairs : list (loc * loc)) : M (world R W S Host) unit :=
  for_each pairs (fun p => do! call p.2 p.1 in ret tt).

(** Before decoration: the functions to decorate are function objects, and
    the other members of the class carry no route specification. *)
Definition ready_to_decorate w (r : router) (pairs : list (loc * loc)) : Prop :=
  Forall (fun fn => exists f, heap w !! fn = Some (OFunc f)) pairs.*1 /\
  forall m f, m ∈ (getmembers r).*2 -> m ∉ pairs.*1 ->
              heap w !! m = Some (OFunc f) -> route_spec_attr f = None.

(** What decorating [fn] with the specification [spec] does to the world:
    the specification is a new object, the function object refers to it
    under [__route_spec__] and is otherwise what it was, every other object
    is what it was, and the host has not been touched. *)
Definition attaches_only w w' (fn : loc) (f : func) (self : loc) (spec : R) : Prop :=
  heap w !! self = None /\
  heap w' !! self = Some (ORoute spec) /\
  heap w' !! fn = Some (OFunc (mk_func (fn_code f) (Some self) (ws_route_spec_attr f)
                                       (router_lifespan_attr f))) /\
  (forall l, l <> fn -> l <> self -> heap w' !! l = heap w !! l) /\
  host w' = host w.

End HeapVocabulary.

Section StarletteVocabulary.
Import Py Starlette.

(** The route object mounting builds from a route specification. *)
Definition mounted_route (p : string) (s : RouterSpec) (fn : loc) (rt : ROUTE)
  : BaseRoute :=
  Route fn {| path := _get_path p s (inl rt);
              include_in_schema := include_in_schema rt;
              name := name rt;
              middleware := concat (spec_middleware s) (middleware rt);
              methods := methods rt |}.

Definition mounted_websocket (p : string) (s : RouterSpec) (fn : loc) (x : WEBSOCKET)
  : BaseRoute :=
  WebSocketRoute fn {| ws_path := _get_path p s (inr x); ws_name := ws_name x |}.

(** A registered route is the one built from the discovered entry. *)
Definition route_registered (h : gmap loc Obj) (p : string) (s : RouterSpec)
    (e : loc * loc) (reg : BaseRoute) : Prop :=
  exists rt, h !! e.2 = Some (ORoute rt) /\ reg = mounted_route p s e.1 rt.

Definition websocket_registered (h : gmap loc Obj) (p : string) (s : RouterSpec)
    (e : loc * loc) (reg : BaseRoute) : Prop :=
  exists x, h !! e.2 = Some (OWebsocket x) /\ reg = mounted_websocket p s e.1 x.

(** Any number of mount calls in a row, whatever each returns or raises. *)
Definition starlette_mounts (r : router) (calls : list string) (w : Starlette.World)
  : Starlette.World :=
  fold_left (fun w p => snd (Starlette.mount_router r p w)) calls w.

(** The test router in miniature: a GET handler and a websocket handler,
    both decorated, under a router specification. *)
Definition example_heap : gmap loc Obj :=
  list_to_map
    [(1%positive, OFunc (mk_func (Plain 0) (Some 2%positive) None false));
     (2%positive, ORoute (GET "/x" (mk_route_kwargs None None (Some [7]) None)));
     (3%positive, ORouterSpec (mk_RouterSpec "/v1" (Some [5; 5])));
     (4%positive, OFunc (mk_func (Plain 1) None (Some 5%positive) false));
     (5%positive, OWebsocket (mk_WEBSOCKET "/ws" None))].

Definition example_router : router :=
  mk_router (Some 3%positive) [("fake_get_handler", 1%positive); ("notify", 4%positive)].

(** Two handlers that no decorator has touched yet. *)
Definition undecorated_heap : gmap loc Starlette.Obj :=
  list_to_map [(1%positive, OFunc (plain_func (Plain 0)));
               (2%positive, OFunc (plain_func (Plain 1)))].

End StarletteVocabulary.

Section LitestarVocabulary.
Import Py Litestar.

(** The router specification [mount_router] ends up with on its copy. *)
Definition mounted_spec (p : string) (mr : option (gmap Z ResponseSpec))
    (mt : option (list string)) (inc : option bool) (s : RouterSpec) : RouterSpec :=
  {| prefix := if truthy p then join_prefix p (prefix s) else prefix s;
     spec_include_in_schema :=
       match inc with Some _ => inc | None => spec_include_in_schema s end;
     spec_tags := concat_unique mt (spec_tags s);
     spec_responses := merge mr (spec_responses s);
     spec_other := spec_other s |}.

Definition handler_registered (h : gmap loc Obj) (s : RouterSpec)
    (e : loc * loc) (hd : Handler) : Prop :=
  exists rt, h !! e.2 = Some (ORoute rt) /\
             hd = HTTPRouteHandler e.1
                    (set_responses (spec_responses s) (asdict_route rt)).

Definition ws_handler_registered (h : gmap loc Obj) (e : loc * loc) (hd : Handler)
  : Prop :=
  exists x, h !! e.2 = Some (OWebsocket x) /\
            hd = WebsocketRouteHandler e.1 (ws_path x) (ws_name x).

(** The options [kw] of an HTTP handler are those of the route specification
    [rt] as [asdict] returns them, [responses] left aside. *)
Definition route_options_passed (rt kw : ROUTE) : Prop :=
  path kw = path rt /\ http_method kw = http_method rt /\ name kw = name rt /\
  status_code kw = status_code rt /\ include_in_schema kw = include_in_schema rt /\
  tags kw = tags rt /\ other kw = asdict_items (other rt).

Definition litestar_mounts (r : router)
    (calls : list (string * option (gmap Z Litestar.ResponseSpec)
                   * option (list string) * option bool))
    (w : Litestar.World) : Litestar.World :=
  fold_left (fun w '(p, mr, mt, inc) => snd (Litestar.mount_router r p mr mt inc w))
            calls w.

(** The same router in a litestar world; it declares tags and a response for
    status 401, and a mount call may supply another response for 401. *)
Definition router_401 : gmap Z ResponseSpec := {[401%Z := 2]}.
Definition caller_401 : gmap Z ResponseSpec := {[401%Z := 1]}.

Definition litestar_heap : gmap loc Obj :=
  list_to_map
    [(1%positive, OFunc (mk_func (Plain 0) (Some 2%positive) None false));
     (2%positive, ORoute (GET (OnePath "/x") no_kwargs));
     (3%positive, ORouterSpec (mk_RouterSpec "/v1" None (Some ["a"; "b"])
                                 (Some router_401) []));
     (4%positive, OFunc (mk_func (Plain 1) None (Some 5%positive) false));
     (5%positive, OWebsocket (mk_WEBSOCKET "/ws" None))].

End LitestarVocabulary.

Section FastAPIVocabulary.
Import Py Async FastAPI.

Definition api_route_registered (h : gmap loc Obj) (e : loc * loc) (reg : APIRoute)
  : Prop :=
  exists rt, h !! e.2 = Some (ORoute rt) /\ reg = api_route e.1 (asdict_route rt).

Definition api_websocket_registered (h : gmap loc Obj) (e : loc * loc) (reg : APIRoute)
  : Prop :=
  exists x, h !! e.2 = Some (OWebsocket x) /\ reg = api_websocket_route e.1 x.

(** Lifespan methods as they are written: effects, one [yield], effects.
    [plain_hook] resumes into its teardown only when resumed normally;
    [guarded_hook], the hook of the test suite, puts the teardown in the
    [finally] of a [try] around the [yield]. *)
Definition effects (t : list event) : gen := GReturn t.

Definition plain_hook (setup teardown : list event) : gen :=
  seq (effects setup) (seq yield_ (effects teardown)).

Definition guarded_hook (setup teardown : list event) : gen :=
  seq (effects setup) (try_finally yield_ (effects teardown)).

(** A hook whose [yield] stands in a [try] with a handler that catches
    whatever is thrown in and passes, the teardown following the [try]. *)
Definition caught_hook (setup teardown : list event) : gen :=
  seq (effects setup)
      (seq (GYield [] (GReturn []) (fun _ => GReturn [])) (effects teardown)).

(** What a generator that is resumed does when it runs to its end: its
    effects, and the exception it ends with, if any. *)
Definition finished (g : gen) : option (list event * option exn) :=
  match g with
  | GReturn t => Some (t, None)
  | GRaise t x => Some (t, Some x)
  | GYield _ _ _ => None
  end.

(** [LIFESPAN] applied to a generator method. *)
Definition lifespan_of (body : gen) : code := AsyncCM (AsyncGenFn body).

(** The context the host is given for a router whose lifespan hook is [c]. *)
Definition installed (c : code) : code :=
  default c (_make_lifespan_for_router (Some c)).

(** A world with a lifespan method like the one of the test suite, not yet
    decorated, and a router specification. *)
Definition lifespan_heap : gmap loc Obj :=
  list_to_map
    [(1%positive, OFunc (plain_func (AsyncGenFn (guarded_hook [1] [2]))));
     (3%positive, ORouterSpec (mk_RouterSpec "/api" (Some ["test"]) None None true []))].

End FastAPIVocabulary.

Section PathVocabulary.

(** Whether a path starts, or ends, with the separator. *)
Definition starts_with_slash (s : string) : bool :=
  match s with
  | String c _ => Ascii.eqb c "/"
  | EmptyString => false
  end.


End PathVocabulary.

Section DecorationVocabulary.
Import Py.
Context {R W S Host : Type}.


End DecorationVocabulary.

Section ClassVocabulary.
Import Py.

(** A class as reflection sees it before its methods are decorated: two
    members bound to the same [None], two handlers, and, in the heap, the two
    decorator instances about to be applied and a router specification. *)
Definition class_heap : gmap loc Starlette.Obj :=
  list_to_map
    [(1%positive, OFunc (plain_func (Plain 0)));
     (2%positive, OFunc (plain_func (Plain 1)));
     (3%positive, ORouterSpec (Starlette.mk_RouterSpec "/api" None));
     (9%positive, OOther);
     (10%positive, ORoute (Starlette.GET "/get" Starlette.no_kwargs));
     (11%positive, ORoute (Starlette.POST "/post" Starlette.no_kwargs))].

Definition class_router : router :=
  mk_router (Some 3%positive)
    [("__hash__", 9%positive); ("__weakref__", 9%positive);
     ("fake_get_handler", 1%positive); ("fake_post_handler", 2%positive)].

Definition class_pairs : list (loc * loc) :=
  [(1%positive, 10%positive); (2%positive, 11%positive)].

End ClassVocabulary.

Section MountVocabulary.
Import Py.

(** A router whose second handler has had something that is no
    specification assigned to its [__route_spec__] attribute by hand. *)
Definition broken_heap : gmap loc Starlette.Obj :=
  list_to_map
    [(1%positive, OFunc (mk_func (Plain 0) (Some 2%positive) None false));
     (2%positive, ORoute (Starlette.GET "/x" Starlette.no_kwargs));
     (3%positive, ORouterSpec (Starlette.mk_RouterSpec "/v1" None));
     (4%positive, OFunc (mk_func (Plain 1) (Some 5%positive) None false));
     (5%positive, OOther)].

Definition broken_router : router :=
  mk_router (Some 3%positive) [("a", 1%positive); ("b", 4%positive)].

End MountVocabulary.

Section LitestarMountVocabulary.
Import Py.

(** The same broken router in a litestar world. *)
Definition litestar_broken_heap : gmap loc Litestar.Obj :=
  list_to_map
    [(1%positive, OFunc (mk_func (Plain 0) (Some 2%positive) None false));
     (2%positive, ORoute (Litestar.GET (Litestar.OnePath "/x") Litestar.no_kwargs));
     (3%positive, ORouterSpec (Litestar.mk_RouterSpec "/v1" None None None []));
     (4%positive, OFunc (mk_func (Plain 1) (Some 5%positive) None false));
     (5%positive, OOther)].

End LitestarMountVocabulary.

Section OptionsVocabulary.
Import Py.

(** A litestar router whose route and router specification both carry a
    [cache_control] header, an instance of a dataclass, and whose route has
    an [opt] dictionary, a status code, tags and a response of its own. *)
Definition litestar_options_heap : gmap loc Litestar.Obj :=
  list_to_map
    [(1%positive, OFunc (mk_func (Plain 0) (Some 2%positive) None false));
     (2%positive,
      ORoute (Litestar.POST (Litestar.OnePath "/x")
                (Litestar.mk_route_kwargs None (Some "create") (Some 202%Z) None
                   (Some caller_401) (Some ["t"])
                   [("cache_control", PyInstance 0 [("max_age", PyAtom 60)]);
                    ("opt", PyDict [("k", PyAtom 1)])])));
     (3%positive,
      ORouterSpec (Litestar.mk_RouterSpec "/v1" None (Some ["a"; "b"]) (Some router_401)
                     [("cache_control", PyInstance 0 [("max_age", PyAtom 30)])]));
     (4%positive, OFunc (mk_func (Plain 1) None (Some 5%positive) false));
     (5%positive, OWebsocket (Litestar.mk_WEBSOCKET "/ws" (Some "notify")))].

(** The test router of the fastapi adapter in miniature: a handler with a
    status code, a response and a dependency, which is an instance of a
    dataclass; a websocket handler; and a lifespan method that [LIFESPAN]
    has wrapped and marked. *)
Definition fastapi_heap : gmap loc FastAPI.Obj :=
  list_to_map
    [(1%positive, OFunc (mk_func (Plain 0) (Some 2%positive) None false));
     (2%positive,
      ORoute (FastAPI.GET "/x"
                (FastAPI.mk_route_kwargs (Some 202%Z) (Some ["t"])
                   (Some {[404%Z := PyInstance 1 [("description", PyAtom 4)]]})
                   None None None
                   [("dependencies",
                     PyList [PyInstance 0 [("dependency", PyAtom 7);
                                           ("use_cache", PyAtom 1)]])])));
     (3%positive,
      ORouterSpec (FastAPI.mk_RouterSpec "/api" (Some ["test"]) None None true
                     [("dependencies",
                       PyList [PyInstance 0 [("dependency", PyAtom 8);
                                             ("use_cache", PyAtom 1)]])]));
     (4%positive, OFunc (mk_func (Plain 1) None (Some 5%positive) false));
     (5%positive, OWebsocket (FastAPI.mk_WEBSOCKET "/ws" None));
     (6%positive, OFunc (mk_func (lifespan_of (guarded_hook [1] [2])) None None true))].

Definition fastapi_router : router :=
  mk_router (Some 3%positive)
    [("fake_get_handler", 1%positive); ("lifespan", 6%positive); ("notify", 4%positive)].

(** The broken router in a fastapi world. *)
Definition fastapi_broken_heap : gmap loc FastAPI.Obj :=
  list_to_map
    [(1%positive, OFunc (mk_func (Plain 0) (Some 2%positive) None false));
     (2%positive, ORoute (FastAPI.GET "/x" FastAPI.no_kwargs));
     (3%positive, ORouterSpec (FastAPI.mk_RouterSpec "/v1" None None None true []));
     (4%positive, OFunc (mk_func (Plain 1) (Some 5%positive) None false));
     (5%positive, OOther)].

End OptionsVocabulary.

(** * Properties *)

(** ** Stripping slashes *)

Section Strip.
Import Py.

Lemma append_String (c : ascii) (r t : string) :
  String c r +:+ t = String c (r +:+ t).
Proof. reflexivity. Qed.

Lemma append_assoc (a b c : string) : (a +:+ b) +:+ c = a +:+ (b +:+ c).
Proof.
  induction a as [|x a IH]; [reflexivity |].
  now rewrite !append_String, IH.
Qed.

Lemma lstrip_slashes (n : nat) (s : string) :
  lstrip "/" (slashes n +:+ s) = lstrip "/" s.
Proof.
  induction n as [|n IH]; [reflexivity |].
  change (slashes (S n)) with (String "/" (slashes n)).
  rewrite append_String. exact IH.
Qed.

Lemma rstrip_only_slashes (n : nat) : rstrip "/" (slashes n) = "".
Proof. induction n as [|n IH]; simpl; [reflexivity | now rewrite IH]. Qed.

Lemma rstrip_slashes (s : string) (n : nat) :
  rstrip "/" (s +:+ slashes n) = rstrip "/" s.
Proof.
  induction s as [|c r IH].
  - apply rstrip_only_slashes.
  - rewrite append_String. simpl. now rewrite IH.
Qed.

Lemma rstrip_app_kept (chars s t : string) :
  rstrip chars t <> "" -> rstrip chars (s +:+ t) = s +:+ rstrip chars t.
Proof.
  intros Ht. induction s as [|c r IH]; [reflexivity |].
  rewrite !append_String. simpl. rewrite IH.
  destruct (r +:+ rstrip chars t) eqn:E; [|reflexivity].
  destruct r; [contradiction | rewrite append_String in E; discriminate].
Qed.

End Strip.

(** ** Path composition *)

Section PathComposition.
Import Py.

Lemma rstrip_router_prefix (k l : nat) :
  lstrip "/" (rstrip "/" (slashes k +:+ "v1" +:+ slashes l)) = "v1".
Proof.
  rewrite <- append_assoc, rstrip_slashes.
  rewrite rstrip_app_kept by (vm_compute; discriminate).
  rewrite lstrip_slashes. reflexivity.
Qed.

Lemma rstrip_mount_prefix (j : nat) : rstrip "/" ("/api" +:+ slashes j) = "/api".
Proof. rewrite rstrip_slashes. reflexivity. Qed.

Lemma lstrip_route_path (m : nat) : lstrip "/" (slashes m +:+ "x") = "x".
Proof. rewrite lstrip_slashes. reflexivity. Qed.

(** C3, as stated, fails: [_get_path] keeps the host prefix's leading part
    as written, so a host prefix without its leading slash gives a path
    without one. *)
Lemma starlette_get_path_no_leading_slash :
  Starlette._get_path "api" (Starlette.mk_RouterSpec "/v1" None)
    (inl (Starlette.GET "/x" Starlette.no_kwargs)) = "api/v1/x"
  /\ "api/v1/x" <> "/api/v1/x".
Proof. split; [reflexivity | discriminate]. Qed.

(** A trailing slash of the route path is kept as well. *)
Lemma starlette_get_path_trailing_slash :
  Starlette._get_path "/api" (Starlette.mk_RouterSpec "/v1" None)
    (inl (Starlette.GET "/x/" Starlette.no_kwargs)) = "/api/v1/x/".
Proof. reflexivity. Qed.

(** C3 (amended): with the host prefix ["/api"] followed by any number of
    trailing slashes, the router prefix ["v1"] between any number of leading
    and trailing slashes, and the route path ["x"] after any number of
    leading slashes, starlette's [_get_path] gives exactly ["/api/v1/x"], for
    routes and websocket routes alike; litestar's prefix join gives the
    router path ["/api/v1"] followed by the router prefix's own trailing
    slashes. *)
Theorem path_composition_slash_variants (j k l m : nat)
    (mw : option (list Starlette.Middleware)) (kw : Starlette.route_kwargs)
    (d : Starlette.Method) (nm : option string) :
  Starlette._get_path ("/api" +:+ slashes j)
    (Starlette.mk_RouterSpec (slashes k +:+ "v1" +:+ slashes l) mw)
    (inl (Starlette.decorator_of d (slashes m +:+ "x") kw)) = "/api/v1/x"
  /\ Starlette._get_path ("/api" +:+ slashes j)
       (Starlette.mk_RouterSpec (slashes k +:+ "v1" +:+ slashes l) mw)
       (inr (Starlette.mk_WEBSOCKET (slashes m +:+ "x") nm)) = "/api/v1/x"
  /\ Litestar.join_prefix ("/api" +:+ slashes j) (slashes k +:+ "v1" +:+ slashes l)
     = "/api/v1" +:+ slashes l.
Proof.
  assert (Hp : forall s, Starlette.spec_path s = slashes m +:+ "x" ->
    Starlette._get_path ("/api" +:+ slashes j)
      (Starlette.mk_RouterSpec (slashes k +:+ "v1" +:+ slashes l) mw) s = "/api/v1/x").
  { intros s Hs. unfold Starlette._get_path. rewrite Hs. simpl Starlette.prefix.
    rewrite rstrip_router_prefix, rstrip_mount_prefix, lstrip_route_path.
    reflexivity. }
  split; [|split].
  - apply Hp. destruct d; reflexivity.
  - apply Hp. reflexivity.
  - unfold Litestar.join_prefix.
    rewrite rstrip_mount_prefix, lstrip_slashes. reflexivity.
Qed.

End PathComposition.

(** ** What a computation leaves untouched *)

Section Frame.
Import Py.
Context {R W S Host : Type}.
Implicit Types (w : world R W S Host) (h : gmap loc (obj R W S)).

Lemma preserved_refl w : preserved w w.
Proof. split; auto. Qed.

Lemma preserved_trans w1 w2 w3 : preserved w1 w2 -> preserved w2 w3 -> preserved w1 w3.
Proof. intros [A1 B1] [A2 B2]. split; auto. Qed.

Lemma preserved_set_host w0 w a : preserved w0 w -> preserved w0 (set_host a w).
Proof. intros H. exact H. Qed.

Lemma fresh_lookup h : h !! fresh (dom h) = None.
Proof. apply not_elem_of_dom, is_fresh. Qed.

Lemma preserved_fresh w0 w l : preserved w0 w -> heap w !! l = None -> heap w0 !! l = None.
Proof.
  intros [A _] Hl. destruct (heap w0 !! l) eqn:E; [|reflexivity].
  apply A in E. congruence.
Qed.

Lemma preserved_write w0 w l o :
  preserved w0 w -> heap w0 !! l = None -> (forall f, o <> OFunc f) ->
  preserved w0 (set_heap (<[l := o]> (heap w)) w).
Proof.
  intros [A B] Hl Ho. split; simpl.
  - intros l' o' H'. destruct (decide (l = l')) as [->|Hne]; [congruence|].
    rewrite lookup_insert_ne by done. auto.
  - intros l' f H'. destruct (decide (l = l')) as [->|Hne].
    + rewrite lookup_insert_eq in H'. inversion H' as [E]. now apply Ho in E.
    + rewrite lookup_insert_ne in H' by done. auto.
Qed.

Lemma replace_preserved w0 w l res w' :
  preserved w0 w -> replace l w = (res, w') ->
  preserved w0 w' /\ host w' = host w /\
  forall l', res = inr l' ->
    heap w0 !! l' = None /\ heap w !! l' = None /\
    exists o, heap w !! l = Some o /\ (forall f, o <> OFunc f) /\
              heap w' = <[l' := o]> (heap w).
Proof.
  intros Hp H. unfold replace, alloc in H.
  pose proof (fresh_lookup (heap w)) as Hf.
  destruct (heap w !! l) as [[f|r|x|s|]|] eqn:E; inversion H; subst; clear H;
    try (split; [exact Hp | split; [reflexivity | intros ? [=]]]).
  all: split; [apply preserved_write; eauto using preserved_fresh; congruence |].
  all: split; [reflexivity |].
  all: intros l' [= <-]; split; [eauto using preserved_fresh | split; [exact Hf |]].
  all: eexists; split; [reflexivity | split; [congruence | reflexivity]].
Qed.

Lemma update_route_preserved w0 w l upd res w' :
  preserved w0 w -> heap w0 !! l = None -> update_route l upd w = (res, w') ->
  preserved w0 w' /\ host w' = host w.
Proof.
  intros Hp Hl H. unfold update_route in H.
  destruct (heap w !! l) as [[f|r|x|s|]|]; inversion H; subst; auto.
  split; [apply preserved_write; auto; congruence | reflexivity].
Qed.

Lemma update_websocket_preserved w0 w l upd res w' :
  preserved w0 w -> heap w0 !! l = None -> update_websocket l upd w = (res, w') ->
  preserved w0 w' /\ host w' = host w.
Proof.
  intros Hp Hl H. unfold update_websocket in H.
  destruct (heap w !! l) as [[f|r|x|s|]|]; inversion H; subst; auto.
  split; [apply preserved_write; auto; congruence | reflexivity].
Qed.

Lemma update_router_spec_preserved w0 w l upd res w' :
  preserved w0 w -> heap w0 !! l = None -> update_router_spec l upd w = (res, w') ->
  preserved w0 w' /\ host w' = host w.
Proof.
  intros Hp Hl H. unfold update_router_spec in H.
  destruct (heap w !! l) as [[f|r|x|s|]|]; inversion H; subst; auto.
  split; [apply preserved_write; auto; congruence | reflexivity].
Qed.

Lemma deref_route_same l w res w' : deref_route l w = (res, w') -> w' = w.
Proof.
  unfold deref_route. destruct (heap w !! l) as [[f|r|x|s|]|]; now inversion 1.
Qed.

Lemma deref_websocket_same l w res w' : deref_websocket l w = (res, w') -> w' = w.
Proof.
  unfold deref_websocket. destruct (heap w !! l) as [[f|r|x|s|]|]; now inversion 1.
Qed.

Lemma deref_router_spec_same l w res w' : deref_router_spec l w = (res, w') -> w' = w.
Proof.
  unfold deref_router_spec. destruct (heap w !! l) as [[f|r|x|s|]|]; now inversion 1.
Qed.

(** Loops whose body leaves the old heap untouched do so as a whole. *)
Lemma for_each_preserved {A} (body : A -> M (world R W S Host) unit) w0 :
  (forall x w res w', preserved w0 w -> body x w = (res, w') -> preserved w0 w') ->
  forall xs w res w', preserved w0 w -> for_each xs body w = (res, w') -> preserved w0 w'.
Proof.
  intros Hb xs. induction xs as [|x xs IH]; intros w res w' Hp H; simpl in H.
  - inversion H; subst; exact Hp.
  - unfold bind in H. destruct (body x w) as [[e|[]] w1] eqn:E.
    + inversion H; subst. eauto.
    + eapply IH; [|exact H]. eauto.
Qed.

Lemma for_collect_preserved {A B} (body : A -> M (world R W S Host) B) w0 :
  (forall x w res w', preserved w0 w -> body x w = (res, w') -> preserved w0 w') ->
  forall xs w res w', preserved w0 w -> for_collect xs body w = (res, w') -> preserved w0 w'.
Proof.
  intros Hb xs. induction xs as [|x xs IH]; intros w res w' Hp H; simpl in H.
  - inversion H; subst; exact Hp.
  - unfold bind in H. destruct (body x w) as [[e|y] w1] eqn:E.
    + inversion H; subst. eauto.
    + destruct (for_collect xs body w1) as [[e|ys] w2] eqn:E2.
      * inversion H; subst. eauto.
      * inversion H; subst. eauto.
Qed.

(** Discovery reads function objects only, so it sees the same thing. *)
Lemma route_spec_of_preserved w w' m :
  preserved w w' -> route_spec_of (heap w') m = route_spec_of (heap w) m.
Proof.
  intros [A B]. unfold route_spec_of.
  destruct (heap w !! m) as [o|] eqn:E.
  - now rewrite (A _ _ E).
  - destruct (heap w' !! m) as [[f|r|x|s|]|] eqn:E'; try reflexivity.
    apply B in E'. congruence.
Qed.

Lemma ws_route_spec_of_preserved w w' m :
  preserved w w' -> ws_route_spec_of (heap w') m = ws_route_spec_of (heap w) m.
Proof.
  intros [A B]. unfold ws_route_spec_of.
  destruct (heap w !! m) as [o|] eqn:E.
  - now rewrite (A _ _ E).
  - destruct (heap w' !! m) as [[f|r|x|s|]|] eqn:E'; try reflexivity.
    apply B in E'. congruence.
Qed.

Lemma find_tagged_ext (f g : loc -> option loc) members :
  (forall m, f m = g m) -> find_tagged f members = find_tagged g members.
Proof.
  intros H. induction members as [|[n m] rest IH]; simpl; [reflexivity|].
  now rewrite H, IH.
Qed.

Lemma find_routes_preserved w w' r :
  preserved w w' ->
  _find_routes_from_router (heap w') r = _find_routes_from_router (heap w) r.
Proof. intros H. apply find_tagged_ext. intros m. now apply route_spec_of_preserved. Qed.

Lemma find_websocket_routes_preserved w w' r :
  preserved w w' ->
  _find_websocket_routes_from_router (heap w') r
  = _find_websocket_routes_from_router (heap w) r.
Proof. intros H. apply find_tagged_ext. intros m. now apply ws_route_spec_of_preserved. Qed.

End Frame.

(** ** Stepping through a computation *)

Section Steps.
Import Py.
Context {St : Type}.

Lemma bind_inv {A B} (m : M St A) (k : A -> M St B) s res s' :
  bind m k s = (res, s') ->
  (exists e, m s = (inl e, s') /\ res = inl e) \/
  (exists a s1, m s = (inr a, s1) /\ k a s1 = (res, s')).
Proof.
  unfold bind. destruct (m s) as [[e|a] s1]; intros H.
  - left. inversion H; subst. eauto.
  - right. eauto.
Qed.

Lemma bind_ok {A B} (m : M St A) (k : A -> M St B) s a s1 :
  m s = (inr a, s1) -> bind m k s = k a s1.
Proof. unfold bind. now intros ->. Qed.

End Steps.

Ltac bind_cases H a w1 E :=
  apply bind_inv in H as [(? & E & ->) | (a & w1 & E & H)].

(** ** Starlette: what mounting leaves untouched *)

Section StarletteFrame.
Import Py Starlette.

Lemma starlette_mount_route_preserved p sp e (w0 w : World) res w' :
  preserved w0 w -> mount_route p sp e w = (res, w') -> preserved w0 w'.
Proof.
  intros Hp H. destruct e as [fn rl]. unfold mount_route in H.
  bind_cases H l w1 E1.
  { now apply (replace_preserved w0) in E1 as [? _]. }
  apply (replace_preserved w0) in E1 as (Hp1 & _ & Hl); [|exact Hp].
  destruct (Hl l eq_refl) as (Hl0 & _).
  bind_cases H s w2 E2; apply deref_router_spec_same in E2 as ->; [exact Hp1|].
  bind_cases H r w3 E3; apply deref_route_same in E3 as ->; [exact Hp1|].
  bind_cases H u w4 E4.
  { now apply (update_route_preserved w0) in E4 as [? _]. }
  apply (update_route_preserved w0) in E4 as [Hp4 _]; [|exact Hp1|exact Hl0].
  bind_cases H r' w5 E5; apply deref_route_same in E5 as ->; [exact Hp4|].
  bind_cases H u' w6 E6.
  { now apply (update_route_preserved w0) in E6 as [? _]. }
  apply (update_route_preserved w0) in E6 as [Hp6 _]; [|exact Hp4|exact Hl0].
  bind_cases H kw w7 E7; apply deref_route_same in E7 as ->; [exact Hp6|].
  inversion H; subst. exact Hp6.
Qed.

Lemma starlette_mount_websocket_preserved p sp e (w0 w : World) res w' :
  preserved w0 w -> mount_websocket p sp e w = (res, w') -> preserved w0 w'.
Proof.
  intros Hp H. destruct e as [fn rl]. unfold mount_websocket in H.
  bind_cases H l w1 E1.
  { now apply (replace_preserved w0) in E1 as [? _]. }
  apply (replace_preserved w0) in E1 as (Hp1 & _ & Hl); [|exact Hp].
  destruct (Hl l eq_refl) as (Hl0 & _).
  bind_cases H s w2 E2; apply deref_router_spec_same in E2 as ->; [exact Hp1|].
  bind_cases H r w3 E3; apply deref_websocket_same in E3 as ->; [exact Hp1|].
  bind_cases H u w4 E4.
  { now apply (update_websocket_preserved w0) in E4 as [? _]. }
  apply (update_websocket_preserved w0) in E4 as [Hp4 _]; [|exact Hp1|exact Hl0].
  bind_cases H kw w7 E7; apply deref_websocket_same in E7 as ->; [exact Hp4|].
  inversion H; subst. exact Hp4.
Qed.

Lemma starlette_inspect_router_same r (w : World) res w' :
  inspect_router r w = (res, w') -> w' = w.
Proof. unfold inspect_router. destruct (_find_router_spec r); now inversion 1. Qed.

Lemma starlette_mount_router_preserved r p (w0 w : World) res w' :
  preserved w0 w -> mount_router r p w = (res, w') -> preserved w0 w'.
Proof.
  intros Hp H. unfold mount_router in H.
  bind_cases H members w1 E1; apply starlette_inspect_router_same in E1 as ->;
    [exact Hp|].
  bind_cases H l w2 E2.
  { now apply (replace_preserved w0) in E2 as [? _]. }
  apply (replace_preserved w0) in E2 as (Hp2 & _); [|exact Hp].
  bind_cases H u w3 E3.
  - eapply for_each_preserved; [|exact Hp2|exact E3].
    intros; eapply starlette_mount_route_preserved; eauto.
  - eapply for_each_preserved; [| |exact H].
    + intros; eapply starlette_mount_websocket_preserved; eauto.
    + eapply for_each_preserved; [|exact Hp2|exact E3].
      intros; eapply starlette_mount_route_preserved; eauto.
Qed.

End StarletteFrame.

(** ** Heap operations on objects of the expected class *)

Section HeapOps.
Import Py.
Context {R W S Host : Type}.
Implicit Types (w : world R W S Host).

Lemma replace_route_ok w l (r : R) :
  heap w !! l = Some (ORoute r) ->
  replace l w = (inr (fresh (dom (heap w))),
                 set_heap (<[fresh (dom (heap w)) := ORoute r]> (heap w)) w).
Proof. intros H. unfold replace. now rewrite H. Qed.

Lemma replace_websocket_ok w l (x : W) :
  heap w !! l = Some (OWebsocket x) ->
  replace l w = (inr (fresh (dom (heap w))),
                 set_heap (<[fresh (dom (heap w)) := OWebsocket x]> (heap w)) w).
Proof. intros H. unfold replace. now rewrite H. Qed.

Lemma replace_router_spec_ok w l (s : S) :
  heap w !! l = Some (ORouterSpec s) ->
  replace l w = (inr (fresh (dom (heap w))),
                 set_heap (<[fresh (dom (heap w)) := ORouterSpec s]> (heap w)) w).
Proof. intros H. unfold replace. now rewrite H. Qed.

Lemma deref_route_ok w l (r : R) :
  heap w !! l = Some (ORoute r) -> deref_route l w = (inr r, w).
Proof. intros H. unfold deref_route. now rewrite H. Qed.

Lemma deref_websocket_ok w l (x : W) :
  heap w !! l = Some (OWebsocket x) -> deref_websocket l w = (inr x, w).
Proof. intros H. unfold deref_websocket. now rewrite H. Qed.

Lemma deref_router_spec_ok w l (s : S) :
  heap w !! l = Some (ORouterSpec s) -> deref_router_spec l w = (inr s, w).
Proof. intros H. unfold deref_router_spec. now rewrite H. Qed.

Lemma update_route_ok w l (r : R) upd :
  heap w !! l = Some (ORoute r) ->
  update_route l upd w = (inr tt, set_heap (<[l := ORoute (upd r)]> (heap w)) w).
Proof. intros H. unfold update_route. now rewrite H. Qed.

Lemma update_websocket_ok w l (x : W) upd :
  heap w !! l = Some (OWebsocket x) ->
  update_websocket l upd w
  = (inr tt, set_heap (<[l := OWebsocket (upd x)]> (heap w)) w).
Proof. intros H. unfold update_websocket. now rewrite H. Qed.

Lemma update_router_spec_ok w l (s : S) upd :
  heap w !! l = Some (ORouterSpec s) ->
  update_router_spec l upd w
  = (inr tt, set_heap (<[l := ORouterSpec (upd s)]> (heap w)) w).
Proof. intros H. unfold update_router_spec. now rewrite H. Qed.

Lemma lookup_other_than_fresh w l o :
  heap w !! l = Some o -> forall o', <[fresh (dom (heap w)) := o']> (heap w) !! l = Some o.
Proof.
  intros H o'. rewrite lookup_insert_ne; [exact H|].
  intros E. rewrite <- E, fresh_lookup in H. discriminate.
Qed.

End HeapOps.

(** ** Starlette: what a successful mount registers *)

Section StarletteMount.
Import Py Starlette.

Lemma starlette_mount_route_ok p sp s fn rl rt (w : World) :
  heap w !! sp = Some (ORouterSpec s) ->
  heap w !! rl = Some (ORoute rt) ->
  exists w', mount_route p sp (fn, rl) w = (inr tt, w') /\
             host w' = host w ++ [mounted_route p s fn rt] /\
             preserved w w'.
Proof.
  intros Hs Hr. unfold mount_route.
  set (l := fresh (dom (heap w))).
  erewrite bind_ok by (apply replace_route_ok; exact Hr). fold l.
  erewrite bind_ok by (apply deref_router_spec_ok; simpl;
                       apply lookup_other_than_fresh; exact Hs).
  erewrite bind_ok by (apply deref_route_ok; simpl; apply lookup_insert_eq).
  erewrite bind_ok by (apply update_route_ok; simpl; apply lookup_insert_eq).
  erewrite bind_ok by (apply deref_route_ok; simpl; apply lookup_insert_eq).
  erewrite bind_ok by (apply update_route_ok; simpl; apply lookup_insert_eq).
  erewrite bind_ok by (apply deref_route_ok; simpl; apply lookup_insert_eq).
  eexists. split; [reflexivity|]. split; [reflexivity|].
  simpl. rewrite !insert_insert_eq.
  apply (preserved_write w w); [apply preserved_refl | apply fresh_lookup | congruence].
Qed.

Lemma starlette_mount_websocket_ok p sp s fn wl x (w : World) :
  heap w !! sp = Some (ORouterSpec s) ->
  heap w !! wl = Some (OWebsocket x) ->
  exists w', mount_websocket p sp (fn, wl) w = (inr tt, w') /\
             host w' = host w ++ [mounted_websocket p s fn x] /\
             preserved w w'.
Proof.
  intros Hs Hr. unfold mount_websocket.
  set (l := fresh (dom (heap w))).
  erewrite bind_ok by (apply replace_websocket_ok; exact Hr). fold l.
  erewrite bind_ok by (apply deref_router_spec_ok; simpl;
                       apply lookup_other_than_fresh; exact Hs).
  erewrite bind_ok by (apply deref_websocket_ok; simpl; apply lookup_insert_eq).
  erewrite bind_ok by (apply update_websocket_ok; simpl; apply lookup_insert_eq).
  erewrite bind_ok by (apply deref_websocket_ok; simpl; apply lookup_insert_eq).
  eexists. split; [reflexivity|]. split; [reflexivity|].
  simpl. rewrite !insert_insert_eq.
  apply (preserved_write w w); [apply preserved_refl | apply fresh_lookup | congruence].
Qed.

End StarletteMount.

Section StarletteLoops.
Import Py Starlette.

Lemma starlette_routes_loop_ok p sp s entries : forall (w0 w : World),
  preserved w0 w ->
  heap w !! sp = Some (ORouterSpec s) ->
  Forall (fun e => exists rt, heap w0 !! e.2 = Some (ORoute rt)) entries ->
  exists w' regs,
    for_each entries (mount_route p sp) w = (inr tt, w') /\
    host w' = host w ++ regs /\ preserved w w' /\
    Forall2 (route_registered (heap w0) p s) entries regs.
Proof.
  induction entries as [|[fn rl] rest IH]; intros w0 w Hp Hs Hall.
  - exists w, []. simpl. rewrite app_nil_r.
    repeat split; auto using preserved_refl; apply preserved_refl.
  - inversion Hall as [|? ? [rt Hrt] Hrest]; subst. simpl in Hrt.
    destruct (starlette_mount_route_ok p sp s fn rl rt w Hs) as (w1 & E1 & Hh1 & Hp1).
    { apply Hp. exact Hrt. }
    destruct (IH w0 w1) as (w' & regs & E & Hh & Hp' & Hregs); auto.
    { eapply preserved_trans; eauto. }
    { apply Hp1. exact Hs. }
    exists w', (mounted_route p s fn rt :: regs).
    simpl. erewrite bind_ok by exact E1.
    split; [exact E|]. split; [rewrite Hh, Hh1, <- app_assoc; reflexivity|].
    split; [eapply preserved_trans; eauto|].
    constructor; [|exact Hregs]. exists rt. split; [exact Hrt | reflexivity].
Qed.

Lemma starlette_websockets_loop_ok p sp s entries : forall (w0 w : World),
  preserved w0 w ->
  heap w !! sp = Some (ORouterSpec s) ->
  Forall (fun e => exists x, heap w0 !! e.2 = Some (OWebsocket x)) entries ->
  exists w' regs,
    for_each entries (mount_websocket p sp) w = (inr tt, w') /\
    host w' = host w ++ regs /\ preserved w w' /\
    Forall2 (websocket_registered (heap w0) p s) entries regs.
Proof.
  induction entries as [|[fn rl] rest IH]; intros w0 w Hp Hs Hall.
  - exists w, []. simpl. rewrite app_nil_r.
    repeat split; auto using preserved_refl; apply preserved_refl.
  - inversion Hall as [|? ? [x Hx] Hrest]; subst. simpl in Hx.
    destruct (starlette_mount_websocket_ok p sp s fn rl x w Hs) as (w1 & E1 & Hh1 & Hp1).
    { apply Hp. exact Hx. }
    destruct (IH w0 w1) as (w' & regs & E & Hh & Hp' & Hregs); auto.
    { eapply preserved_trans; eauto. }
    { apply Hp1. exact Hs. }
    exists w', (mounted_websocket p s fn x :: regs).
    simpl. erewrite bind_ok by exact E1.
    split; [exact E|]. split; [rewrite Hh, Hh1, <- app_assoc; reflexivity|].
    split; [eapply preserved_trans; eauto|].
    constructor; [|exact Hregs]. exists x. split; [exact Hx | reflexivity].
Qed.

End StarletteLoops.

Section WellTyped.
Import Py.
Context {R W S : Type}.
Implicit Types (h : gmap loc (obj R W S)).

Lemma specs_well_typed_routes h r :
  specs_well_typed h r = true ->
  Forall (fun e => exists rt, h !! e.2 = Some (ORoute rt)) (_find_routes_from_router h r).
Proof.
  unfold specs_well_typed. intros H. apply andb_prop in H as [H _].
  apply Forall_forall. intros e He.
  rewrite forallb_forall in H. specialize (H e (proj1 (list_elem_of_In _ _) He)).
  unfold is_route in H. destruct (h !! e.2) as [[]|]; try discriminate. eauto.
Qed.

Lemma specs_well_typed_websockets h r :
  specs_well_typed h r = true ->
  Forall (fun e => exists x, h !! e.2 = Some (OWebsocket x))
         (_find_websocket_routes_from_router h r).
Proof.
  unfold specs_well_typed. intros H. apply andb_prop in H as [_ H].
  apply Forall_forall. intros e He.
  rewrite forallb_forall in H. specialize (H e (proj1 (list_elem_of_In _ _) He)).
  unfold is_websocket in H. destruct (h !! e.2) as [[]|]; try discriminate. eauto.
Qed.

End WellTyped.

Section StarletteMountRouter.
Import Py Starlette.

Lemma starlette_mount_router_ok r p sl s (w : World) :
  _find_router_spec r = Some sl ->
  heap w !! sl = Some (ORouterSpec s) ->
  specs_well_typed (heap w) r = true ->
  exists w' http ws,
    mount_router r p w = (inr tt, w') /\
    host w' = host w ++ http ++ ws /\
    preserved w w' /\
    Forall2 (route_registered (heap w) p s) (_find_routes_from_router (heap w) r) http /\
    Forall2 (websocket_registered (heap w) p s)
            (_find_websocket_routes_from_router (heap w) r) ws.
Proof.
  intros Hr Hs Hwt. unfold mount_router.
  assert (Ei : inspect_router r w
               = (inr {| spec := sl;
                         routes := _find_routes_from_router (heap w) r;
                         websocket_routes :=
                           _find_websocket_routes_from_router (heap w) r |}, w)).
  { unfold inspect_router. rewrite Hr. reflexivity. }
  erewrite bind_ok by exact Ei. simpl.
  erewrite bind_ok by (apply replace_router_spec_ok; exact Hs).
  set (l := fresh (dom (heap w))).
  set (w1 := set_heap (<[l := ORouterSpec s]> (heap w)) w).
  assert (Hp1 : preserved w w1).
  { apply (preserved_write w w); [apply preserved_refl | apply fresh_lookup | congruence]. }
  assert (Hl : heap w1 !! l = Some (ORouterSpec s)) by apply lookup_insert_eq.
  destruct (starlette_routes_loop_ok p l s _ w w1 Hp1 Hl
              (specs_well_typed_routes _ _ Hwt)) as (w2 & http & E2 & Hh2 & Hp2 & Hr2).
  erewrite bind_ok by exact E2.
  destruct (starlette_websockets_loop_ok p l s _ w w2
              (preserved_trans _ _ _ Hp1 Hp2) (proj1 Hp2 _ _ Hl)
              (specs_well_typed_websockets _ _ Hwt)) as (w3 & ws & E3 & Hh3 & Hp3 & Hr3).
  exists w3, http, ws. split; [exact E3|].
  split; [rewrite Hh3, Hh2; simpl; now rewrite app_assoc|].
  split; [eauto using preserved_trans|]. split; assumption.
Qed.

End StarletteMountRouter.

(** ** Middleware of mounted routes (starlette) *)

Section StarletteMiddleware.
Import Py Starlette.

Lemma concat_both {T} (a b : list T) : concat (Some a) (Some b) = Some (a ++ b).
Proof. reflexivity. Qed.

Lemma concat_as_lists {T} (a b : option (list T)) :
  default [] (concat a b) = default [] a ++ default [] b.
Proof. destruct a, b; simpl; auto using app_nil_r. Qed.

(** C6: mounting a decorated router whose attributes hold specifications
    succeeds, and registers for every discovered route, in order, a route
    whose middleware is [concat] of the router-level and the route-level
    middleware: when both are given, the router-level elements followed by the
    route-level elements, nothing dropped. *)
Theorem starlette_mount_concatenates_middleware
    (w : World) (r : router) (p : string) (sl : loc) (s : RouterSpec) :
  _find_router_spec r = Some sl ->
  heap w !! sl = Some (ORouterSpec s) ->
  specs_well_typed (heap w) r = true ->
  exists w' http ws,
    mount_router r p w = (inr tt, w') /\
    host w' = host w ++ http ++ ws /\
    Forall2 (fun e reg => exists rt kw,
               heap w !! e.2 = Some (ORoute rt) /\ reg = Route e.1 kw /\
               middleware kw = concat (spec_middleware s) (middleware rt) /\
               (forall a b, spec_middleware s = Some a -> middleware rt = Some b ->
                            middleware kw = Some (a ++ b)))
            (_find_routes_from_router (heap w) r) http.
Proof.
  intros Hr Hs Hwt.
  destruct (starlette_mount_router_ok r p sl s w Hr Hs Hwt)
    as (w' & http & ws & E & Hh & _ & Hreg & _).
  exists w', http, ws. split; [exact E|]. split; [exact Hh|].
  eapply Forall2_impl; [exact Hreg|].
  intros e reg (rt & Hrt & ->). exists rt. eexists.
  split; [exact Hrt|]. split; [reflexivity|]. simpl. split; [reflexivity|].
  intros a b -> ->. reflexivity.
Qed.

Lemma starlette_mount_concatenates_middleware_witness :
  exists w' http ws,
    mount_router example_router "/api" (mk_world example_heap []) = (inr tt, w') /\
    host w' = [] ++ http ++ ws /\
    Forall2 (fun e reg => exists rt kw,
               example_heap !! e.2 = Some (ORoute rt) /\ reg = Route e.1 kw /\
               middleware kw = concat (Some [5; 5]) (middleware rt) /\
               (forall a b, Some [5; 5] = Some a -> middleware rt = Some b ->
                            middleware kw = Some (a ++ b)))
            (_find_routes_from_router example_heap example_router) http.
Proof.
  apply (starlette_mount_concatenates_middleware
           (mk_world example_heap []) example_router "/api" 3%positive
           (mk_RouterSpec "/v1" (Some [5; 5]))).
  - reflexivity.
  - vm_compute. reflexivity.
  - vm_compute. reflexivity.
Defined.

End StarletteMiddleware.

Section StarletteExample.
Import Py Starlette.

(** The test router of the repository in miniature: one GET route and one
    websocket route under the router prefix, mounted under a host prefix. *)
Example starlette_mount_example :
  let '(res, w') := mount_router example_router "/api" (mk_world example_heap []) in
  res = inr tt /\
  host w' = [Route 1%positive (mk_ROUTE "/api/v1/x" true None (Some [5; 5; 7]) [M_GET]);
             WebSocketRoute 4%positive (mk_WEBSOCKET "/api/v1/ws" None)].
Proof. vm_compute. split; reflexivity. Qed.

End StarletteExample.

(** ** Litestar: what mounting leaves untouched, and what it registers *)

Section LitestarMount.
Import Py Litestar.

Lemma litestar_inspect_router_same r (w : World) res w' :
  inspect_router r w = (res, w') -> w' = w.
Proof. unfold inspect_router. destruct (_find_router_spec r); now inversion 1. Qed.

Lemma litestar_mount_route_preserved sp e (w0 w : World) res w' :
  preserved w0 w -> mount_route sp e w = (res, w') -> preserved w0 w'.
Proof.
  intros Hp H. destruct e as [fn rl]. unfold mount_route in H.
  bind_cases H l w1 E1.
  { now apply (replace_preserved w0) in E1 as [? _]. }
  apply (replace_preserved w0) in E1 as (Hp1 & _ & Hl); [|exact Hp].
  destruct (Hl l eq_refl) as (Hl0 & _).
  bind_cases H s w2 E2; apply deref_router_spec_same in E2 as ->; [exact Hp1|].
  bind_cases H r w3 E3; apply deref_route_same in E3 as ->; [exact Hp1|].
  bind_cases H u w4 E4.
  { now apply (update_route_preserved w0) in E4 as [? _]. }
  apply (update_route_preserved w0) in E4 as [Hp4 _]; [|exact Hp1|exact Hl0].
  bind_cases H r' w5 E5; apply deref_route_same in E5 as ->; [exact Hp4|].
  bind_cases H s' w6 E6; apply deref_router_spec_same in E6 as ->; [exact Hp4|].
  inversion H; subst. exact Hp4.
Qed.

Lemma litestar_mount_websocket_preserved e (w0 w : World) res w' :
  preserved w0 w -> mount_websocket e w = (res, w') -> preserved w0 w'.
Proof.
  intros Hp H. destruct e as [fn rl]. unfold mount_websocket in H.
  bind_cases H x w1 E1; apply deref_websocket_same in E1 as ->; [exact Hp|].
  inversion H; subst. exact Hp.
Qed.

Lemma litestar_mount_router_preserved r p mr mt inc (w0 w : World) res w' :
  preserved w0 w -> mount_router r p mr mt inc w = (res, w') -> preserved w0 w'.
Proof.
  intros Hp H. unfold mount_router in H.
  bind_cases H members w1 E1; apply litestar_inspect_router_same in E1 as ->;
    [exact Hp|].
  bind_cases H l w2 E2.
  { now apply (replace_preserved w0) in E2 as [? _]. }
  apply (replace_preserved w0) in E2 as (Hp2 & _ & Hl); [|exact Hp].
  destruct (Hl l eq_refl) as (Hl0 & _). clear Hl.
  bind_cases H s w3 E3; apply deref_router_spec_same in E3 as ->; [exact Hp2|].
  bind_cases H u w4 E4.
  { now apply (update_router_spec_preserved w0) in E4 as [? _]. }
  apply (update_router_spec_preserved w0) in E4 as [Hp4 _]; [|exact Hp2|exact Hl0].
  bind_cases H s' w5 E5; apply deref_router_spec_same in E5 as ->; [exact Hp4|].
  bind_cases H u' w6 E6.
  { now apply (update_router_spec_preserved w0) in E6 as [? _]. }
  apply (update_router_spec_preserved w0) in E6 as [Hp6 _]; [|exact Hp4|exact Hl0].
  assert (Hprefix : forall res7 w7,
    (if truthy p
     then let! s := deref_router_spec l in
          update_router_spec l (set_prefix (join_prefix p (prefix s)))
     else ret tt) w6 = (res7, w7) -> preserved w0 w7).
  { intros res7 w7 H7. destruct (truthy p).
    - bind_cases H7 s7 w7' E7; apply deref_router_spec_same in E7 as ->; [exact Hp6|].
      now apply (update_router_spec_preserved w0) in H7 as [? _].
    - inversion H7; subst. exact Hp6. }
  bind_cases H u7 w7 E7; [eauto|]. apply Hprefix in E7.
  assert (Hinc : forall res8 w8,
    (match inc with
     | Some _ => update_router_spec l (set_spec_include_in_schema inc)
     | None => ret tt
     end) w7 = (res8, w8) -> preserved w0 w8).
  { intros res8 w8 H8. destruct inc.
    - now apply (update_router_spec_preserved w0) in H8 as [? _].
    - inversion H8; subst. exact E7. }
  bind_cases H u8 w8 E8; [eauto|]. apply Hinc in E8.
  bind_cases H s9 w9 E9; apply deref_router_spec_same in E9 as ->; [exact E8|].
  assert (Hhttp : forall res' w'',
    for_collect (routes members) (mount_route l) w8 = (res', w'') -> preserved w0 w'').
  { intros res' w'' Hc. eapply for_collect_preserved; [|exact E8|exact Hc].
    intros; eapply litestar_mount_route_preserved; eauto. }
  bind_cases H http w10 E10; [eauto|]. apply Hhttp in E10.
  assert (Hws : forall res' w'',
    for_collect (websocket_routes members) mount_websocket w10 = (res', w'') ->
    preserved w0 w'').
  { intros res' w'' Hc. eapply for_collect_preserved; [|exact E10|exact Hc].
    intros; eapply litestar_mount_websocket_preserved; eauto. }
  bind_cases H ws w11 E11; [eauto|]. apply Hws in E11.
  inversion H; subst. exact E11.
Qed.

End LitestarMount.

Section LitestarMountOk.
Import Py Litestar.

Lemma litestar_mount_route_ok sp s fn rl rt (w : World) :
  heap w !! sp = Some (ORouterSpec s) ->
  heap w !! rl = Some (ORoute rt) ->
  exists w', mount_route sp (fn, rl) w
             = (inr (HTTPRouteHandler fn
                       (set_responses (spec_responses s) (asdict_route rt))), w') /\
             host w' = host w /\ preserved w w'.
Proof.
  intros Hs Hr. unfold mount_route.
  set (l := fresh (dom (heap w))).
  erewrite bind_ok by (apply replace_route_ok; exact Hr). fold l.
  erewrite bind_ok by (apply deref_router_spec_ok; simpl;
                       apply lookup_other_than_fresh; exact Hs).
  erewrite bind_ok by (apply deref_route_ok; simpl; apply lookup_insert_eq).
  erewrite bind_ok by (apply update_route_ok; simpl; apply lookup_insert_eq).
  erewrite bind_ok by (apply deref_route_ok; simpl; apply lookup_insert_eq).
  erewrite bind_ok by (apply deref_router_spec_ok; simpl;
                       rewrite insert_insert_eq;
                       apply lookup_other_than_fresh; exact Hs).
  eexists. split; [reflexivity|]. split; [reflexivity|].
  simpl. rewrite !insert_insert_eq.
  apply (preserved_write w w); [apply preserved_refl | apply fresh_lookup | congruence].
Qed.

Lemma litestar_routes_loop_ok sp s entries : forall (w0 w : World),
  preserved w0 w ->
  heap w !! sp = Some (ORouterSpec s) ->
  Forall (fun e => exists rt, heap w0 !! e.2 = Some (ORoute rt)) entries ->
  exists w' hds,
    for_collect entries (mount_route sp) w = (inr hds, w') /\
    host w' = host w /\ preserved w w' /\
    Forall2 (handler_registered (heap w0) s) entries hds.
Proof.
  induction entries as [|[fn rl] rest IH]; intros w0 w Hp Hs Hall.
  - exists w, []. simpl. repeat split; auto; apply preserved_refl.
  - inversion Hall as [|? ? [rt Hrt] Hrest]; subst. simpl in Hrt.
    destruct (litestar_mount_route_ok sp s fn rl rt w Hs) as (w1 & E1 & Hh1 & Hp1).
    { apply Hp. exact Hrt. }
    destruct (IH w0 w1) as (w' & hds & E & Hh & Hp' & Hregs); auto.
    { eapply preserved_trans; eauto. }
    { apply Hp1. exact Hs. }
    eexists w', (_ :: hds).
    simpl. erewrite bind_ok by exact E1. erewrite bind_ok by exact E.
    split; [reflexivity|]. split; [congruence|].
    split; [eapply preserved_trans; eauto|].
    constructor; [|exact Hregs]. exists rt. split; [exact Hrt | reflexivity].
Qed.

Lemma litestar_websockets_loop_ok entries (w0 w : World) :
  preserved w0 w ->
  Forall (fun e => exists x, heap w0 !! e.2 = Some (OWebsocket x)) entries ->
  exists hds,
    for_collect entries mount_websocket w = (inr hds, w) /\
    Forall2 (ws_handler_registered (heap w0)) entries hds.
Proof.
  intros Hp. induction entries as [|[fn wl] rest IH]; intros Hall.
  - exists []. simpl. split; [reflexivity | constructor].
  - inversion Hall as [|? ? [x Hx] Hrest]; subst. simpl in Hx.
    destruct (IH Hrest) as (hds & E & Hregs).
    eexists (_ :: hds). simpl. unfold mount_websocket at 1.
    erewrite bind_ok by (erewrite bind_ok by (apply deref_websocket_ok, Hp; exact Hx);
                         reflexivity).
    erewrite bind_ok by exact E.
    split; [reflexivity|].
    constructor; [|exact Hregs]. exists x. split; [exact Hx | reflexivity].
Qed.

Lemma litestar_mount_router_ok r p mr mt inc sl s (w : World) :
  _find_router_spec r = Some sl ->
  heap w !! sl = Some (ORouterSpec s) ->
  specs_well_typed (heap w) r = true ->
  exists w' http ws,
    mount_router r p mr mt inc w = (inr tt, w') /\
    host w' = host w ++ [mk_LitestarRouter (prefix (mounted_spec p mr mt inc s))
                           (asdict_options (mounted_spec p mr mt inc s)) (http ++ ws)] /\
    preserved w w' /\
    Forall2 (handler_registered (heap w) (mounted_spec p mr mt inc s))
            (_find_routes_from_router (heap w) r) http /\
    Forall2 (ws_handler_registered (heap w))
            (_find_websocket_routes_from_router (heap w) r) ws.
Proof.
  intros Hr Hs Hwt. unfold mount_router.
  assert (Ei : inspect_router r w
               = (inr {| spec := sl;
                         routes := _find_routes_from_router (heap w) r;
                         websocket_routes :=
                           _find_websocket_routes_from_router (heap w) r |}, w)).
  { unfold inspect_router. rewrite Hr. reflexivity. }
  erewrite bind_ok by exact Ei. simpl.
  erewrite bind_ok by (apply replace_router_spec_ok; exact Hs).
  set (l := fresh (dom (heap w))).
  erewrite bind_ok by (apply deref_router_spec_ok; simpl; apply lookup_insert_eq).
  erewrite bind_ok by (apply update_router_spec_ok; simpl; apply lookup_insert_eq).
  erewrite bind_ok by (apply deref_router_spec_ok; simpl; apply lookup_insert_eq).
  erewrite bind_ok by (apply update_router_spec_ok; simpl; apply lookup_insert_eq).
  simpl. rewrite !insert_insert_eq.
  set (s2 := set_spec_tags _ _).
  assert (E7 : exists w7, (if truthy p
     then let! s := deref_router_spec l in
          update_router_spec l (set_prefix (join_prefix p (prefix s)))
     else ret tt) (set_heap (<[l := ORouterSpec s2]> (heap w)) w) = (inr tt, w7) /\
     host w7 = host w /\
     heap w7 = <[l := ORouterSpec
                   (mk_RouterSpec (if truthy p then join_prefix p (prefix s) else prefix s)
                      (spec_include_in_schema s) (spec_tags s2) (spec_responses s2)
                      (spec_other s))]> (heap w)).
  { destruct (truthy p).
    - erewrite bind_ok by (apply deref_router_spec_ok; simpl; apply lookup_insert_eq).
      erewrite update_router_spec_ok by (simpl; apply lookup_insert_eq).
      eexists. split; [reflexivity|]. split; [reflexivity|].
      simpl. now rewrite insert_insert_eq.
    - eexists. split; [reflexivity|]. split; reflexivity. }
  destruct E7 as (w7 & E7 & Hh7 & Hheap7). erewrite bind_ok by exact E7.
  assert (E8 : exists w8, (match inc with
     | Some _ => update_router_spec l (set_spec_include_in_schema inc)
     | None => ret tt
     end) w7 = (inr tt, w8) /\ host w8 = host w /\
     heap w8 = <[l := ORouterSpec (mounted_spec p mr mt inc s)]> (heap w)).
  { destruct inc.
    - erewrite update_router_spec_ok by (rewrite Hheap7; apply lookup_insert_eq).
      eexists. split; [reflexivity|]. split; [exact Hh7|].
      simpl. rewrite Hheap7. now rewrite insert_insert_eq.
    - eexists. split; [reflexivity|]. split; [exact Hh7|]. exact Hheap7. }
  destruct E8 as (w8 & E8 & Hh8 & Hheap8). erewrite bind_ok by exact E8.
  assert (Hl8 : heap w8 !! l = Some (ORouterSpec (mounted_spec p mr mt inc s))).
  { rewrite Hheap8. apply lookup_insert_eq. }
  erewrite bind_ok by (apply deref_router_spec_ok; exact Hl8).
  assert (Hp8 : preserved w w8).
  { destruct w8 as [h8 a8]. simpl in *. subst h8.
    apply (preserved_write w w); [apply preserved_refl | apply fresh_lookup | congruence]. }
  destruct (litestar_routes_loop_ok l _ _ w w8 Hp8 Hl8
              (specs_well_typed_routes _ _ Hwt)) as (w9 & http & E9 & Hh9 & Hp9 & Hr9).
  erewrite bind_ok by exact E9.
  assert (Hp : preserved w w9) by eauto using preserved_trans.
  destruct (litestar_websockets_loop_ok
              (_find_websocket_routes_from_router (heap w) r) w w9 Hp
              (specs_well_typed_websockets _ _ Hwt)) as (ws & E10 & Hr10).
  erewrite bind_ok by exact E10.
  eexists _, http, ws. split; [reflexivity|].
  split; [simpl; f_equal; etransitivity; [exact Hh9 | exact Hh8]|].
  split; [exact Hp|]. split; assumption.
Qed.

End LitestarMountOk.

(** ** FastAPI: mounting reads the heap and calls the host *)

Section FastAPIMount.
Import Py FastAPI.

Lemma fastapi_routes_loop_ok entries (w : World) :
  Forall (fun e => exists rt, heap w !! e.2 = Some (ORoute rt)) entries ->
  exists regs,
    for_collect entries add_api_route w = (inr regs, w) /\
    Forall2 (api_route_registered (heap w)) entries regs.
Proof.
  induction entries as [|[fn rl] rest IH]; intros Hall.
  - exists []. simpl. split; [reflexivity | constructor].
  - inversion Hall as [|? ? [rt Hrt] Hrest]; subst. simpl in Hrt.
    destruct (IH Hrest) as (regs & E & Hregs).
    eexists (_ :: regs). simpl. unfold add_api_route at 1.
    erewrite bind_ok by (erewrite bind_ok by (apply deref_route_ok; exact Hrt);
                         reflexivity).
    erewrite bind_ok by exact E.
    split; [reflexivity|].
    constructor; [|exact Hregs]. exists rt. split; [exact Hrt | reflexivity].
Qed.

Lemma fastapi_websockets_loop_ok entries (w : World) :
  Forall (fun e => exists x, heap w !! e.2 = Some (OWebsocket x)) entries ->
  exists regs,
    for_collect entries add_api_websocket_route w = (inr regs, w) /\
    Forall2 (api_websocket_registered (heap w)) entries regs.
Proof.
  induction entries as [|[fn rl] rest IH]; intros Hall.
  - exists []. simpl. split; [reflexivity | constructor].
  - inversion Hall as [|? ? [x Hx] Hrest]; subst. simpl in Hx.
    destruct (IH Hrest) as (regs & E & Hregs).
    eexists (_ :: regs). simpl. unfold add_api_websocket_route at 1.
    erewrite bind_ok by (erewrite bind_ok by (apply deref_websocket_ok; exact Hx);
                         reflexivity).
    erewrite bind_ok by exact E.
    split; [reflexivity|].
    constructor; [|exact Hregs]. exists x. split; [exact Hx | reflexivity].
Qed.

Lemma fastapi_mount_router_ok r kw sl s (w : World) :
  _find_router_spec r = Some sl ->
  heap w !! sl = Some (ORouterSpec s) ->
  specs_well_typed (heap w) r = true ->
  exists http ws,
    mount_router r kw w
    = (inr tt,
       set_host (host w ++
                 [(mk_APIRouter
                     (_make_lifespan_for_router
                        (callable (heap w) <$> _find_lifespan (heap w) r))
                     (asdict_spec s) (http ++ ws), kw)]) w) /\
    Forall2 (api_route_registered (heap w)) (_find_routes_from_router (heap w) r) http /\
    Forall2 (api_websocket_registered (heap w))
            (_find_websocket_routes_from_router (heap w) r) ws.
Proof.
  intros Hr Hs Hwt. unfold mount_router.
  assert (Ei : inspect_router r w
               = (inr {| spec := sl;
                         routes := _find_routes_from_router (heap w) r;
                         websocket_routes :=
                           _find_websocket_routes_from_router (heap w) r;
                         lifespan := _find_lifespan (heap w) r |}, w)).
  { unfold inspect_router. rewrite Hr. reflexivity. }
  erewrite bind_ok by exact Ei. simpl.
  erewrite bind_ok by reflexivity.
  erewrite bind_ok by (apply deref_router_spec_ok; exact Hs).
  destruct (fastapi_routes_loop_ok _ w (specs_well_typed_routes _ _ Hwt))
    as (http & E1 & H1).
  destruct (fastapi_websockets_loop_ok _ w (specs_well_typed_websockets _ _ Hwt))
    as (ws & E2 & H2).
  erewrite bind_ok by exact E1. erewrite bind_ok by exact E2.
  exists http, ws. split; [reflexivity|]. split; assumption.
Qed.

Lemma fastapi_inspect_router_same r (w : World) res w' :
  inspect_router r w = (res, w') -> w' = w.
Proof. unfold inspect_router. destruct (_find_router_spec r); now inversion 1. Qed.

End FastAPIMount.

(** ** The one error: a class that was never decorated *)

Section Undecorated.
Import Py.

(** C1: for a class that carries no router specification, [inspect_router]
    raises [TypeError], and so does [mount_router], in each of the three
    modules, whatever the members of the class, the state of the world and
    the arguments of the mount call. *)
Theorem undecorated_class_raises_TypeError (members : list (string * loc)) :
  let cls := mk_router None members in
  let err := TypeError "router classes must be decorated with @router decorator" in
  (forall w, fst (Starlette.inspect_router cls w) = inl err) /\
  (forall w, fst (Litestar.inspect_router cls w) = inl err) /\
  (forall w, fst (FastAPI.inspect_router cls w) = inl err) /\
  (forall w p, fst (Starlette.mount_router cls p w) = inl err) /\
  (forall w p mr mt inc, fst (Litestar.mount_router cls p mr mt inc w) = inl err) /\
  (forall w kw, fst (FastAPI.mount_router cls kw w) = inl err).
Proof. repeat split; reflexivity. Qed.

(** C10: on an undecorated class [mount_router] raises before anything is
    registered: the world it leaves, and with it the routing state of the
    host application, is the one it was given. *)
Theorem mount_undecorated_changes_nothing (members : list (string * loc)) :
  let cls := mk_router None members in
  (forall (w : Starlette.World) p,
     Starlette.mount_router cls p w = (inl not_decorated, w)) /\
  (forall (w : FastAPI.World) kw,
     FastAPI.mount_router cls kw w = (inl not_decorated, w)) /\
  (forall (w : Litestar.World) p mr mt inc,
     Litestar.mount_router cls p mr mt inc w = (inl not_decorated, w)).
Proof. repeat split; reflexivity. Qed.

End Undecorated.

(** ** Discovery *)

Section Discovery.
Import Py.

Lemma elem_of_find_tagged (f : loc -> option loc) members m sp :
  (m, sp) ∈ find_tagged f members <-> m ∈ members.*2 /\ f m = Some sp.
Proof.
  induction members as [|[n m'] rest IH]; simpl.
  - split; [intros H; inversion H | intros [H _]; inversion H].
  - destruct (f m') as [sp'|] eqn:E.
    + rewrite elem_of_cons, IH, elem_of_cons. split.
      * intros [[= -> ->] | [H1 H2]]; auto.
      * intros [[-> | H1] H2]; [left; congruence | right; auto].
    + rewrite IH, elem_of_cons. split.
      * intros [H1 H2]; auto.
      * intros [[-> | H1] H2]; [congruence | auto].
Qed.

Lemma length_find_tagged (f : loc -> option loc) members :
  length (find_tagged f members)
  = length (List.filter (fun e => match f e.2 with Some _ => true | None => false end)
                        members).
Proof.
  induction members as [|[n m] rest IH]; simpl; [reflexivity|].
  destruct (f m); simpl; now rewrite IH.
Qed.

Lemma find_tagged_members (f : loc -> option loc) members m :
  m ∈ (find_tagged f members).*1 -> m ∈ members.*2.
Proof.
  intros H. apply list_elem_of_fmap in H as ([m' sp] & -> & H).
  now apply elem_of_find_tagged in H as [H _].
Qed.

Lemma NoDup_find_tagged (f : loc -> option loc) members :
  NoDup members.*2 -> NoDup (find_tagged f members).*1.
Proof.
  induction members as [|[n m] rest IH]; simpl; intros H; [constructor|].
  apply NoDup_cons in H as [Hm Hrest].
  destruct (f m); simpl; [|auto].
  apply NoDup_cons. split; [|auto].
  intros Hin. apply Hm. now apply find_tagged_members in Hin.
Qed.

End Discovery.

Section DiscoveryAfterDecoration.
Import Py.
Context {R W S Host : Type}.
Implicit Types (w : world R W S Host).

Lemma find_tagged_fst_filter (f : loc -> option loc) (fns : list loc) members :
  (forall m, m ∈ members.*2 -> is_Some (f m) <-> m ∈ fns) ->
  (find_tagged f members).*1 = filter (.∈ fns) members.*2.
Proof.
  induction members as [|[n m] rest IH]; intros H; [reflexivity|].
  cbn [find_tagged fmap list_fmap snd].
  assert (Hrest : forall m', m' ∈ rest.*2 -> is_Some (f m') <-> m' ∈ fns).
  { intros m' Hm'. apply H. simpl. apply elem_of_cons. now right. }
  specialize (H m (proj2 (elem_of_cons _ _ _) (or_introl eq_refl))).
  destruct (f m) as [sp|] eqn:E.
  - rewrite filter_cons_True by (apply H; eauto). simpl. f_equal. now apply IH.
  - rewrite filter_cons_False; [now apply IH|].
    intros Hin. apply H in Hin. destruct Hin; discriminate.
Qed.

Lemma apply_decorators_ok (pairs : list (loc * loc)) : forall w0,
  NoDup pairs.*1 ->
  Forall (fun fn => exists f, heap w0 !! fn = Some (OFunc f)) pairs.*1 ->
  exists w1,
    apply_decorators (fun d fn => do! _set_route_spec fn d in ret fn) pairs w0
    = (inr tt, w1) /\
    host w1 = host w0 /\
    (forall fn d, (fn, d) ∈ pairs -> route_spec_of (heap w1) fn = Some d) /\
    (forall m, m ∉ pairs.*1 -> heap w1 !! m = heap w0 !! m).
Proof.
  induction pairs as [|[fn d] rest IH]; intros w0 Hnd Hfs.
  - exists w0. split; [reflexivity|]. split; [reflexivity|].
    split; [intros fn d H; inversion H | reflexivity].
  - simpl in Hnd, Hfs. apply NoDup_cons in Hnd as [Hfn Hnd].
    inversion Hfs as [|? ? [f Hf] Hrest]; subst.
    set (w0' := set_heap (<[fn := OFunc (set_route_spec_attr d f)]> (heap w0)) w0).
    assert (Hfs' : Forall (fun fn' => exists f', heap w0' !! fn' = Some (OFunc f'))
                          rest.*1).
    { apply Forall_forall. intros fn' Hfn'.
      rewrite Forall_forall in Hrest. destruct (Hrest fn' Hfn') as [f' Hf'].
      exists f'. simpl. rewrite lookup_insert_ne; [exact Hf'|].
      intros ->. contradiction. }
    destruct (IH w0' Hnd Hfs') as (w1 & E & Hh & Hin & Hout).
    exists w1. split.
    { unfold apply_decorators. simpl.
      erewrite bind_ok; [exact E|].
      erewrite bind_ok by (erewrite bind_ok
                             by (unfold _set_route_spec, setattr_func; rewrite Hf;
                                 reflexivity);
                           reflexivity).
      reflexivity. }
    split; [exact Hh|]. split.
    + intros fn' d' H. apply elem_of_cons in H as [[= -> ->]|H]; [|now apply Hin].
      unfold route_spec_of. rewrite (Hout fn Hfn). simpl.
      now rewrite lookup_insert_eq.
    + intros m Hm. simpl in Hm. apply not_elem_of_cons in Hm as [Hne Hm].
      rewrite (Hout m Hm). simpl. now rewrite lookup_insert_ne by congruence.
Qed.

Lemma discovery_after_decoration (h : gmap loc (obj R W S)) members pairs :
  NoDup pairs.*1 ->
  (forall fn d, (fn, d) ∈ pairs -> route_spec_of h fn = Some d) ->
  (forall m, m ∈ members.*2 -> m ∉ pairs.*1 -> route_spec_of h m = None) ->
  (forall fn, fn ∈ pairs.*1 -> fn ∈ members.*2) ->
  NoDup (filter (.∈ pairs.*1) members.*2) ->
  find_tagged (route_spec_of h) members ≡ₚ pairs.
Proof.
  intros Hnd Hin Hout Hsub Hnd'.
  assert (Hiff : forall m, m ∈ members.*2 ->
                           is_Some (route_spec_of h m) <-> m ∈ pairs.*1).
  { intros m Hm. split.
    - intros [d Hd]. destruct (decide (m ∈ pairs.*1)) as [|Hn]; [assumption|].
      rewrite (Hout m Hm Hn) in Hd. discriminate.
    - intros H. apply list_elem_of_fmap in H as ([fn d] & -> & H).
      simpl. rewrite (Hin _ _ H). eauto. }
  apply NoDup_Permutation.
  - apply (NoDup_fmap_1 fst). now rewrite (find_tagged_fst_filter _ _ _ Hiff).
  - now apply (NoDup_fmap_1 fst).
  - intros [m d]. rewrite elem_of_find_tagged. split.
    + intros [Hm Hd]. assert (H : m ∈ pairs.*1) by (apply Hiff; eauto).
      apply list_elem_of_fmap in H as ([fn d'] & -> & H).
      simpl in Hd. rewrite (Hin _ _ H) in Hd. now inversion Hd; subst.
    + intros H. split; [|now apply Hin].
      apply Hsub. apply list_elem_of_fmap. exists (m, d). auto.
Qed.

Lemma decorate_then_discover w0 (r : router) pairs :
  NoDup pairs.*1 ->
  (forall fn, fn ∈ pairs.*1 -> fn ∈ (getmembers r).*2) ->
  NoDup (filter (.∈ pairs.*1) (getmembers r).*2) ->
  ready_to_decorate w0 r pairs ->
  exists w1,
    apply_decorators (fun d fn => do! _set_route_spec fn d in ret fn) pairs w0
    = (inr tt, w1) /\
    host w1 = host w0 /\
    length (_find_routes_from_router (heap w1) r) = length pairs /\
    _find_routes_from_router (heap w1) r ≡ₚ pairs.
Proof.
  intros Hnd Hsub Hnd' [Hfs Hothers].
  destruct (apply_decorators_ok pairs w0 Hnd Hfs) as (w1 & E & Hh & Hin & Hout).
  assert (Hperm : _find_routes_from_router (heap w1) r ≡ₚ pairs).
  { apply discovery_after_decoration; auto.
    intros m Hm Hn. unfold route_spec_of. rewrite (Hout m Hn).
    destruct (heap w0 !! m) as [[f| | | |]|] eqn:Em; try reflexivity.
    exact (Hothers m f Hm Hn Em). }
  exists w1. split; [exact E|]. split; [exact Hh|].
  split; [now rewrite Hperm | exact Hperm].
Qed.

End DiscoveryAfterDecoration.

Section DiscoveryClaim.
Import Py.

(** C2: take a class that carries a router specification and [n] distinct
    functions among its members, each bound under one name, the other members
    carrying no route specification; apply one HTTP-method decorator instance
    to each of the [n] functions.  Then [inspect_router] returns a record with
    the router specification whose [routes] has exactly [n] entries: the [n]
    functions, each once, each paired with the very decorator instance that
    was applied to it.  This in each of the three modules. *)
Theorem inspect_router_pairs_each_decorated_method_with_its_spec
    (r : router) (sl : loc) (pairs : list (loc * loc)) :
  _find_router_spec r = Some sl ->
  NoDup pairs.*1 ->
  (forall fn, fn ∈ pairs.*1 -> fn ∈ (getmembers r).*2) ->
  NoDup (filter (.∈ pairs.*1) (getmembers r).*2) ->
  (forall w0 : FastAPI.World, ready_to_decorate w0 r pairs ->
     exists w1 rm,
       apply_decorators FastAPI.ROUTE_call pairs w0 = (inr tt, w1) /\
       FastAPI.inspect_router r w1 = (inr rm, w1) /\ FastAPI.spec rm = sl /\
       length (FastAPI.routes rm) = length pairs /\ FastAPI.routes rm ≡ₚ pairs) /\
  (forall w0 : Litestar.World, ready_to_decorate w0 r pairs ->
     exists w1 rm,
       apply_decorators Litestar.ROUTE_call pairs w0 = (inr tt, w1) /\
       Litestar.inspect_router r w1 = (inr rm, w1) /\ Litestar.spec rm = sl /\
       length (Litestar.routes rm) = length pairs /\ Litestar.routes rm ≡ₚ pairs) /\
  (forall w0 : Starlette.World, ready_to_decorate w0 r pairs ->
     exists w1 rm,
       apply_decorators Starlette.ROUTE_call pairs w0 = (inr tt, w1) /\
       Starlette.inspect_router r w1 = (inr rm, w1) /\ Starlette.spec rm = sl /\
       length (Starlette.routes rm) = length pairs /\ Starlette.routes rm ≡ₚ pairs).
Proof.
  intros Hs Hnd Hsub Hnd'. repeat split; intros w0 Hready.
  - destruct (decorate_then_discover w0 r pairs Hnd Hsub Hnd' Hready)
      as (w1 & E & _ & Hlen & Hperm).
    exists w1. eexists. split; [exact E|].
    unfold FastAPI.inspect_router. rewrite Hs.
    split; [reflexivity|]. split; [reflexivity|]. split; assumption.
  - destruct (decorate_then_discover w0 r pairs Hnd Hsub Hnd' Hready)
      as (w1 & E & _ & Hlen & Hperm).
    exists w1. eexists. split; [exact E|].
    unfold Litestar.inspect_router. rewrite Hs.
    split; [reflexivity|]. split; [reflexivity|]. split; assumption.
  - destruct (decorate_then_discover w0 r pairs Hnd Hsub Hnd' Hready)
      as (w1 & E & _ & Hlen & Hperm).
    exists w1. eexists. split; [exact E|].
    unfold Starlette.inspect_router. rewrite Hs.
    split; [reflexivity|]. split; [reflexivity|]. split; assumption.
Qed.

Lemma inspect_router_pairs_each_decorated_method_with_its_spec_witness :
  exists w1 rm,
    apply_decorators Starlette.ROUTE_call class_pairs (mk_world class_heap [])
    = (inr tt, w1) /\
    Starlette.inspect_router class_router w1 = (inr rm, w1) /\
    Starlette.spec rm = 3%positive /\
    length (Starlette.routes rm) = length class_pairs /\
    Starlette.routes rm ≡ₚ class_pairs.
Proof.
  assert (Hnd : NoDup [1%positive; 2%positive]).
  { apply NoDup_cons. split; [|apply NoDup_singleton].
    intros H. apply list_elem_of_singleton in H. discriminate. }
  assert (Hsub : forall fn, fn ∈ class_pairs.*1 -> fn ∈ (getmembers class_router).*2).
  { intros fn H. simpl in H |- *.
    apply elem_of_cons in H as [->|H];
      [|apply list_elem_of_singleton in H as ->];
      repeat first [apply list_elem_of_here | apply list_elem_of_further]. }
  apply (proj2 (proj2 (inspect_router_pairs_each_decorated_method_with_its_spec
                         class_router 3%positive class_pairs eq_refl Hnd Hsub
                         ltac:(vm_compute; exact Hnd)))).
  split.
  - repeat constructor; eexists; vm_compute; reflexivity.
  - intros m f Hm Hn Hf. simpl in Hm, Hn.
    repeat (apply elem_of_cons in Hm as [->|Hm]);
      try (vm_compute in Hf; discriminate).
    + exfalso. apply Hn. apply list_elem_of_here.
    + exfalso. apply Hn. apply list_elem_of_further, list_elem_of_here.
    + inversion Hm.
Defined.

(** The same class, run: after the two decorators discovery returns the two
    handlers, each with the decorator instance applied to it, and not the
    members bound to [None]. *)
Example decorate_then_inspect :
  let '(_, w1) := apply_decorators Starlette.ROUTE_call class_pairs
                    (mk_world class_heap []) in
  match fst (Starlette.inspect_router class_router w1) with
  | inr rm => Starlette.routes rm = [(1%positive, 10%positive); (2%positive, 11%positive)]
  | inl _ => False
  end.
Proof. vm_compute. reflexivity. Qed.

End DiscoveryClaim.

(** ** Decoration *)

Section Decoration.
Import Py.
Context {R W S Host : Type}.
Implicit Types (w : world R W S Host).

Lemma decorate_attaches_only w (spec : R) fn f :
  heap w !! fn = Some (OFunc f) ->
  exists w',
    (let! self := alloc (ORoute spec) in
     do! _set_route_spec fn self in ret fn) w = (inr fn, w') /\
    attaches_only w w' fn f (fresh (dom (heap w))) spec.
Proof.
  intros Hf. set (self := fresh (dom (heap w))).
  assert (Hself : heap w !! self = None) by apply fresh_lookup.
  assert (Hne : self <> fn) by congruence.
  eexists. split.
  - erewrite bind_ok by reflexivity. fold self.
    unfold _set_route_spec, setattr_func, bind. simpl.
    rewrite lookup_insert_ne by exact Hne. rewrite Hf. reflexivity.
  - unfold attaches_only. simpl. split; [exact Hself|].
    split; [rewrite lookup_insert_ne by congruence; apply lookup_insert_eq|].
    split; [apply lookup_insert_eq|]. split; [|reflexivity].
    intros l H1 H2. now rewrite !lookup_insert_ne by congruence.
Qed.

End Decoration.

Section DecorationClaim.
Import Py.

(** C7, as stated, fails on one word: the specification a decorator attaches
    is not immutable.  The classes are plain dataclasses, not frozen, and an
    assignment to a field of the attached instance, such as [mount_router]
    makes to the fields of its copies, succeeds and is seen through the
    function afterwards. *)
Lemma attached_specification_is_not_immutable :
  let w0 := mk_world undecorated_heap ([] : Starlette.App) in
  let w1 := snd (Starlette.decorate (Starlette.GET "/x" Starlette.no_kwargs)
                   1%positive w0) in
  let self := fresh (dom undecorated_heap) in
  let out := update_route self (Starlette.set_path "/y") w1 in
  route_spec_of (heap w1) 1%positive = Some self /\
  heap w1 !! self = Some (ORoute (Starlette.GET "/x" Starlette.no_kwargs)) /\
  fst out = inr tt /\
  route_spec_of (heap (snd out)) 1%positive = Some self /\
  heap (snd out) !! self = Some (ORoute (Starlette.GET "/y" Starlette.no_kwargs)) /\
  Starlette.GET "/y" Starlette.no_kwargs <> Starlette.GET "/x" Starlette.no_kwargs.
Proof.
  vm_compute. repeat split; try reflexivity. discriminate.
Qed.

(** C7 (amended): applying an HTTP-method decorator, built with any path and
    any options, to a function returns that same function; the only effect is
    that the decorator instance, a route specification whose method is the
    one given explicitly or else the decorator's own, is attached to the
    function; the function keeps its code and its other attributes, no other
    object changes and nothing is registered on the host.  The specification
    is an ordinary dataclass instance: its fields can still be assigned. *)
Theorem http_decorator_returns_function_and_attaches_assignable_spec
    (fn : loc) (f : func) :
  (forall (w : Starlette.World) m p kw,
     heap w !! fn = Some (OFunc f) ->
     let spec := Starlette.decorator_of m p kw in
     let self := fresh (dom (heap w)) in
     Starlette.methods spec = default [m] (Starlette.kw_methods kw) /\
     exists w', Starlette.decorate spec fn w = (inr fn, w') /\
                attaches_only w w' fn f self spec /\
                forall upd, exists w'',
                  update_route self upd w' = (inr tt, w'') /\
                  heap w'' !! self = Some (ORoute (upd spec))) /\
  (forall (w : FastAPI.World) m p kw,
     heap w !! fn = Some (OFunc f) ->
     let spec := FastAPI.decorator_of m p kw in
     let self := fresh (dom (heap w)) in
     FastAPI.methods spec = default [m] (FastAPI.kw_methods kw) /\
     exists w', FastAPI.decorate spec fn w = (inr fn, w') /\
                attaches_only w w' fn f self spec /\
                forall upd, exists w'',
                  update_route self upd w' = (inr tt, w'') /\
                  heap w'' !! self = Some (ORoute (upd spec))) /\
  (forall (w : Litestar.World) m p kw,
     heap w !! fn = Some (OFunc f) ->
     let spec := Litestar.decorator_of m p kw in
     let self := fresh (dom (heap w)) in
     Litestar.http_method spec
     = default (Litestar.OneMethod m) (Litestar.kw_http_method kw) /\
     exists w', Litestar.decorate spec fn w = (inr fn, w') /\
                attaches_only w w' fn f self spec /\
                forall upd, exists w'',
                  update_route self upd w' = (inr tt, w'') /\
                  heap w'' !! self = Some (ORoute (upd spec))).
Proof.
  split; [|split]; intros w m p kw Hf spec self.
  - split; [destruct m; reflexivity|].
    destruct (decorate_attaches_only w spec fn f Hf) as (w' & E & A).
    exists w'. split; [exact E|]. split; [exact A|].
    intros upd. eexists. split; [apply update_route_ok, A|].
    simpl. apply lookup_insert_eq.
  - split; [destruct m; reflexivity|].
    destruct (decorate_attaches_only w spec fn f Hf) as (w' & E & A).
    exists w'. split; [exact E|]. split; [exact A|].
    intros upd. eexists. split; [apply update_route_ok, A|].
    simpl. apply lookup_insert_eq.
  - split; [destruct m; reflexivity|].
    destruct (decorate_attaches_only w spec fn f Hf) as (w' & E & A).
    exists w'. split; [exact E|]. split; [exact A|].
    intros upd. eexists. split; [apply update_route_ok, A|].
    simpl. apply lookup_insert_eq.
Qed.

Lemma http_decorator_returns_function_and_attaches_assignable_spec_witness :
  let kw := Starlette.mk_route_kwargs None (Some "post") None None in
  let spec := Starlette.POST "/post" kw in
  let self := fresh (dom undecorated_heap) in
  Starlette.methods spec = default [Starlette.M_POST] (Starlette.kw_methods kw) /\
  exists w',
    Starlette.decorate spec 1%positive (mk_world undecorated_heap [])
    = (inr 1%positive, w') /\
    attaches_only (mk_world undecorated_heap []) w' 1%positive (plain_func (Plain 0))
                  self spec /\
    forall upd, exists w'',
      update_route self upd w' = (inr tt, w'') /\
      heap w'' !! self = Some (ORoute (upd spec)).
Proof.
  apply (proj1 (http_decorator_returns_function_and_attaches_assignable_spec
                  1%positive (plain_func (Plain 0)))
               (mk_world undecorated_heap []) Starlette.M_POST "/post"
               (Starlette.mk_route_kwargs None (Some "post") None None)).
  vm_compute. reflexivity.
Defined.

End DecorationClaim.


(** ** Responses and tags of a mounted router (litestar) *)

Section LitestarMerge.
Import Py Litestar.

Lemma merge_lookup {V} (a b : gmap Z V) (k : Z) :
  exists m, merge (Some a) (Some b) = Some m /\
            m !! k = match b !! k with Some v => Some v | None => a !! k end.
Proof.
  eexists. split; [reflexivity|].
  rewrite lookup_union. destruct (b !! k), (a !! k); reflexivity.
Qed.

Lemma concat_unique_both (a b : list string) :
  exists l, concat_unique (Some a) (Some b) = Some l /\ NoDup l /\
            forall x, x ∈ l <-> x ∈ a \/ x ∈ b.
Proof.
  eexists. split; [reflexivity|]. split; [apply NoDup_elements|].
  intros x. rewrite elem_of_elements, elem_of_union, !elem_of_list_to_set. reflexivity.
Qed.

Lemma concat_unique_elements (a b : option (list string)) (x : string) :
  x ∈ default [] (concat_unique a b) <-> x ∈ default [] a \/ x ∈ default [] b.
Proof.
  destruct a as [a|], b as [b|]; simpl.
  - rewrite elem_of_elements, elem_of_union, !elem_of_list_to_set. reflexivity.
  - split; [auto | intros [H|H]; [exact H | inversion H]].
  - split; [auto | intros [H|H]; [inversion H | exact H]].
  - split; [intros H; inversion H | intros [H|H]; inversion H].
Qed.

Lemma http_handler_in_app h s e1 e2 http ws fn kw :
  Forall2 (handler_registered h s) e1 http ->
  Forall2 (ws_handler_registered h) e2 ws ->
  HTTPRouteHandler fn kw ∈ http ++ ws ->
  responses kw = spec_responses s.
Proof.
  intros Hh Hw Hin. apply elem_of_app in Hin as [Hin|Hin].
  - apply list_elem_of_lookup in Hin as [i Hi].
    destruct (Forall2_lookup_r _ _ _ _ _ Hh Hi) as (e & _ & rt & _ & Heq).
    inversion Heq; subst. reflexivity.
  - apply list_elem_of_lookup in Hin as [i Hi].
    destruct (Forall2_lookup_r _ _ _ _ _ Hw Hi) as (e & _ & x & _ & Heq).
    discriminate.
Qed.

End LitestarMerge.

Section LitestarClaims.
Import Py Litestar.

(** C4, as stated, fails: the router declares response 2 for status 401, the
    mount call supplies response 1 for it, and the handler is registered
    with the router's. *)
Lemma litestar_caller_responses_lose_ties :
  let out := mount_router example_router "/api" (Some caller_401) None None
               (mk_world litestar_heap []) in
  fst out = inr tt /\
  exists api_router kw ws,
    host (snd out) = [api_router] /\
    route_handlers api_router = HTTPRouteHandler 1%positive kw :: ws /\
    responses kw ≫= lookup 401%Z = Some 2 /\
    responses kw ≫= lookup 401%Z <> Some 1.
Proof.
  vm_compute. split; [reflexivity|].
  do 3 eexists. split; [reflexivity|]. split; [reflexivity|].
  split; [reflexivity | discriminate].
Qed.

(** C4 (amended): mounting a decorated router whose attributes hold
    specifications succeeds and registers one router on the application;
    every HTTP handler of it is given [merge] of the mount-call responses and
    the router-level responses, the overlay of the two in which a key present
    in both keeps the router-level value and a key present in one keeps the
    value it has there. *)
Theorem litestar_router_level_responses_win_ties
    (w : World) (r : router) (p : string) (mr : option (gmap Z ResponseSpec))
    (mt : option (list string)) (inc : option bool) (sl : loc) (s : RouterSpec) :
  _find_router_spec r = Some sl ->
  heap w !! sl = Some (ORouterSpec s) ->
  specs_well_typed (heap w) r = true ->
  exists w' api_router,
    mount_router r p mr mt inc w = (inr tt, w') /\
    host w' = host w ++ [api_router] /\
    (forall fn kw, HTTPRouteHandler fn kw ∈ route_handlers api_router ->
                   responses kw = merge mr (spec_responses s)) /\
    (forall a b, mr = Some a -> spec_responses s = Some b ->
       exists m, merge mr (spec_responses s) = Some m /\
                 forall k, m !! k = match b !! k with
                                    | Some v => Some v
                                    | None => a !! k
                                    end).
Proof.
  intros Hr Hs Hwt.
  destruct (litestar_mount_router_ok r p mr mt inc sl s w Hr Hs Hwt)
    as (w' & http & ws & E & Hh & _ & Hhttp & Hws).
  eexists w', _. split; [exact E|]. split; [exact Hh|]. split.
  - intros fn kw Hin. simpl in Hin.
    now rewrite (http_handler_in_app _ _ _ _ _ _ _ _ Hhttp Hws Hin).
  - intros a b -> ->. eexists. split; [reflexivity|].
    intros k. rewrite lookup_union. destruct (b !! k), (a !! k); reflexivity.
Qed.

Lemma litestar_router_level_responses_win_ties_witness :
  exists w' api_router,
    mount_router example_router "/api" (Some caller_401) (Some ["b"; "c"]) None
                 (mk_world litestar_heap []) = (inr tt, w') /\
    host w' = [] ++ [api_router] /\
    (forall fn kw, HTTPRouteHandler fn kw ∈ route_handlers api_router ->
                   responses kw = merge (Some caller_401) (Some router_401)) /\
    (forall a b, Some caller_401 = Some a -> Some router_401 = Some b ->
       exists m, merge (Some caller_401) (Some router_401) = Some m /\
                 forall k, m !! k = match b !! k with
                                    | Some v => Some v
                                    | None => a !! k
                                    end).
Proof.
  apply (litestar_router_level_responses_win_ties
           (mk_world litestar_heap []) example_router "/api" (Some caller_401)
           (Some ["b"; "c"]) None 3%positive
           (mk_RouterSpec "/v1" None (Some ["a"; "b"]) (Some router_401) [])).
  - reflexivity.
  - vm_compute. reflexivity.
  - vm_compute. reflexivity.
Defined.

(** C5: mounting with mount-call tags [a] on a router that declares tags [b]
    succeeds and hands the host router the tags [concat_unique] gives: a
    list without duplicates whose elements are exactly those of [a] and
    those of [b].  Router tags a, b merged with mount-call tags b, c are, as
    a set, a, b, c. *)
Theorem litestar_tags_are_the_union_without_duplicates
    (w : World) (r : router) (p : string) (mr : option (gmap Z ResponseSpec))
    (inc : option bool) (sl : loc) (s : RouterSpec) (a b : list string) :
  _find_router_spec r = Some sl ->
  heap w !! sl = Some (ORouterSpec s) ->
  specs_well_typed (heap w) r = true ->
  spec_tags s = Some b ->
  (exists w' api_router merged,
     mount_router r p mr (Some a) inc w = (inr tt, w') /\
     host w' = host w ++ [api_router] /\
     opt_tags (options api_router) = Some merged /\
     concat_unique (Some a) (Some b) = Some merged /\
     NoDup merged /\
     forall x, x ∈ merged <-> x ∈ a \/ x ∈ b) /\
  (exists merged,
     concat_unique (Some ["b"; "c"]) (Some ["a"; "b"]) = Some merged /\
     NoDup merged /\
     (list_to_set merged : gset string) = {["a"; "b"; "c"]}).
Proof.
  intros Hr Hs Hwt Hb. split.
  - destruct (litestar_mount_router_ok r p mr (Some a) inc sl s w Hr Hs Hwt)
      as (w' & http & ws & E & Hh & _).
    destruct (concat_unique_both a b) as (l & El & Hnd & Hl).
    eexists w', _, l. split; [exact E|]. split; [exact Hh|].
    split; [simpl; rewrite Hb; exact El|]. auto.
  - eexists. split; [reflexivity|]. split; [apply NoDup_elements|].
    rewrite list_to_set_elements_L. set_solver.
Qed.

Lemma litestar_tags_are_the_union_without_duplicates_witness :
  (exists w' api_router merged,
     mount_router example_router "/api" None (Some ["b"; "c"]) None
                  (mk_world litestar_heap []) = (inr tt, w') /\
     host w' = [] ++ [api_router] /\
     opt_tags (options api_router) = Some merged /\
     concat_unique (Some ["b"; "c"]) (Some ["a"; "b"]) = Some merged /\
     NoDup merged /\
     forall x, x ∈ merged <-> x ∈ ["b"; "c"] \/ x ∈ ["a"; "b"]) /\
  (exists merged,
     concat_unique (Some ["b"; "c"]) (Some ["a"; "b"]) = Some merged /\
     NoDup merged /\
     (list_to_set merged : gset string) = {["a"; "b"; "c"]}).
Proof.
  apply (litestar_tags_are_the_union_without_duplicates
           (mk_world litestar_heap []) example_router "/api" None None 3%positive
           (mk_RouterSpec "/v1" None (Some ["a"; "b"]) (Some router_401) [])).
  - reflexivity.
  - vm_compute. reflexivity.
  - vm_compute. reflexivity.
  - reflexivity.
Defined.

End LitestarClaims.

(** ** Mounting works on copies *)

Section Copies.
Import Py.

Lemma starlette_mounts_preserved r calls : forall w,
  preserved w (starlette_mounts r calls w).
Proof.
  induction calls as [|p calls IH]; intros w; simpl; [apply preserved_refl|].
  eapply preserved_trans; [|apply IH].
  destruct (Starlette.mount_router r p w) as [res w1] eqn:E. simpl.
  eapply starlette_mount_router_preserved; [apply preserved_refl | exact E].
Qed.

Lemma litestar_mounts_preserved r calls : forall w,
  preserved w (litestar_mounts r calls w).
Proof.
  induction calls as [|[[[p mr] mt] inc] calls IH]; intros w; simpl;
    [apply preserved_refl|].
  eapply preserved_trans; [|apply IH].
  destruct (Litestar.mount_router r p mr mt inc w) as [res w1] eqn:E. simpl.
  eapply litestar_mount_router_preserved; [apply preserved_refl | exact E].
Qed.

(** C9: after any sequence of mount calls on a router, in the starlette and
    in the litestar module, every object that was in the heap is still there
    with the same fields (so are the specifications attached to the class and
    to its methods), and [inspect_router] returns what it returned before. *)
Theorem mounting_never_mutates_specifications (r : router) :
  (forall calls (w : Starlette.World),
     let w' := starlette_mounts r calls w in
     (forall l o, heap w !! l = Some o -> heap w' !! l = Some o) /\
     fst (Starlette.inspect_router r w') = fst (Starlette.inspect_router r w)) /\
  (forall calls (w : Litestar.World),
     let w' := litestar_mounts r calls w in
     (forall l o, heap w !! l = Some o -> heap w' !! l = Some o) /\
     fst (Litestar.inspect_router r w') = fst (Litestar.inspect_router r w)).
Proof.
  split; intros calls w w'.
  - pose proof (starlette_mounts_preserved r calls w) as Hp. fold w' in Hp.
    split; [exact (proj1 Hp)|].
    unfold Starlette.inspect_router. destruct (_find_router_spec r); [|reflexivity].
    simpl. now rewrite (find_routes_preserved _ _ r Hp),
                       (find_websocket_routes_preserved _ _ r Hp).
  - pose proof (litestar_mounts_preserved r calls w) as Hp. fold w' in Hp.
    split; [exact (proj1 Hp)|].
    unfold Litestar.inspect_router. destruct (_find_router_spec r); [|reflexivity].
    simpl. now rewrite (find_routes_preserved _ _ r Hp),
                       (find_websocket_routes_preserved _ _ r Hp).
Qed.

(** The copies matter: the same assignment made on the attached object
    itself would be seen by the next discovery. *)
Example assignment_without_copy_is_visible :
  let w := mk_world example_heap ([] : Starlette.App) in
  let w' := snd (update_route 2%positive (Starlette.set_path "/api/v1/x") w) in
  heap w !! 2%positive
    = Some (ORoute (Starlette.mk_ROUTE "/x" true None (Some [7]) [Starlette.M_GET])) /\
  heap w' !! 2%positive
    = Some (ORoute (Starlette.mk_ROUTE "/api/v1/x" true None (Some [7])
                      [Starlette.M_GET])) /\
  ~ preserved w w'.
Proof.
  split; [vm_compute; reflexivity|]. split; [vm_compute; reflexivity|].
  intros [H _]. specialize (H 2%positive _ eq_refl). vm_compute in H. discriminate.
Qed.

(** Two mounts in a row register the routes twice and leave the attached
    specifications as they were. *)
Example starlette_mount_twice :
  let w := mk_world example_heap [] in
  let w' := starlette_mounts example_router ["/api"; "/api"] w in
  length (host w') = 4 /\
  heap w' !! 2%positive = heap w !! 2%positive /\
  heap w' !! 3%positive = heap w !! 3%positive.
Proof. vm_compute. repeat split; reflexivity. Qed.

End Copies.

(** ** The lifespan wrapper (fastapi) *)

Section Lifespan.
Import Py Async FastAPI.

Lemma installed_wrapper c : installed c = AsyncCM (AsyncGenFn (wrapper c)).
Proof. reflexivity. Qed.

Lemma aclose_cases (s : suspended) :
  (exists t, aclose s = (t, None)) \/ (exists t x, aclose s = (t, Some x)).
Proof. destruct (aclose s) as [t [x|]]; eauto. Qed.

Lemma wrapper_passes_through (c : code) (served : list event) (failure : option exn) :
  lifecycle (installed c) served failure = lifecycle c served failure.
Proof.
  rewrite installed_wrapper. unfold lifecycle, wrapper.
  change (call_cm (AsyncCM (AsyncGenFn ?g))) with g.
  destruct (call_cm c) as [t|t x|t ks kt]; [reflexivity | reflexivity |].
  unfold async_with at 2. cbn [aenter prepend yield_ with_block].
  unfold async_with. cbn [aenter prepend].
  rewrite app_nil_r.
  destruct failure as [v|]; cbn [with_block aexit on_send on_throw].
  - destruct (kt v) as [t1|t1 x1|t1 ks1 kt1]; cbn.
    + reflexivity.
    + destruct (decide (x1 = v)) as [->|Hne]; cbn.
      * destruct (decide (v = v)); [reflexivity | contradiction].
      * destruct (decide (x1 = v)); [contradiction | reflexivity].
    + unfold did_not_stop.
      destruct (aclose _) as [t2 [x2|]]; cbn.
      * destruct (decide (x2 = v)) as [->|Hne]; reflexivity.
      * destruct (decide (_ = v)) as [<-|Hne]; reflexivity.
  - destruct ks as [t1|t1 x1|t1 ks1 kt1]; cbn.
    + reflexivity.
    + reflexivity.
    + unfold did_not_stop. destruct (aclose _) as [t2 [x2|]]; reflexivity.
Qed.

Lemma guarded_hook_lifecycle setup teardown served failure :
  lifecycle (lifespan_of (guarded_hook setup teardown)) served failure
  = (setup ++ served ++ teardown, failure).
Proof.
  unfold lifecycle, lifespan_of, guarded_hook, effects. cbn.
  rewrite app_nil_r.
  destruct failure as [v|]; cbn.
  - destruct (decide (v = v)); [|contradiction]. now rewrite app_nil_r.
  - reflexivity.
Qed.

Lemma plain_hook_lifecycle_normal setup teardown served :
  lifecycle (lifespan_of (plain_hook setup teardown)) served None
  = (setup ++ served ++ teardown, None).
Proof.
  unfold lifecycle, lifespan_of, plain_hook, effects. cbn.
  now rewrite app_nil_r.
Qed.

Lemma plain_hook_lifecycle_failure setup teardown served v :
  lifecycle (lifespan_of (plain_hook setup teardown)) served (Some v)
  = (setup ++ served, Some v).
Proof.
  unfold lifecycle, lifespan_of, plain_hook, effects. cbn.
  rewrite !app_nil_r.
  destruct (decide (v = v)); [reflexivity | contradiction].
Qed.

End Lifespan.

Section LifespanClaim.
Import Py Async FastAPI.

(** C8, as stated, fails: a hook whose teardown simply follows its [yield]
    does not run it when the body raises; the exception is thrown in at the
    [yield] and leaves the hook from there. *)
Lemma plain_teardown_skipped_when_body_raises :
  lifecycle (installed (lifespan_of (plain_hook [1] [2]))) [10] (Some (Exception_ 0))
  = ([1; 10], Some (Exception_ 0))
  /\ 2 ∉ [1; 10].
Proof.
  split; [reflexivity|].
  intros H. apply elem_of_cons in H as [H|H]; [discriminate|].
  apply list_elem_of_singleton in H. discriminate.
Qed.

Lemma lifecycle_resumes_once (c : code) t ks kt (served : list event) :
  call_cm c = GYield t ks kt ->
  (forall t' r, finished ks = Some (t', r) ->
                lifecycle c served None = (t ++ served ++ t', r)) /\
  (forall v t' r, finished (kt v) = Some (t', r) ->
                  lifecycle c served (Some v) = (t ++ served ++ t', r)).
Proof.
  intros Hc. unfold lifecycle. rewrite Hc. unfold async_with.
  cbn [aenter prepend with_block aexit on_send on_throw]. split.
  - intros t' r Hf. destruct ks as [t1|t1 x1|]; inversion Hf; subst; reflexivity.
  - intros v t' r Hf.
    destruct (kt v) as [t1|t1 x1|]; inversion Hf; subst; cbn; [reflexivity|].
    destruct (decide (x1 = v)) as [->|]; reflexivity.
Qed.

(** C8 (amended): [_make_lifespan_for_router] installs a wrapper exactly when
    a hook was discovered.  For a hook that suspends at its [yield], a host
    lifecycle run inside the wrapper performs what the same lifecycle run
    directly inside the hook's context manager performs: the hook's setup,
    then the body, then what one resumption of the hook performs, and nothing
    else.  The resumption is a normal one when the body ends normally, so the
    code after the [yield] runs once; it is the exception thrown in at the
    [yield] when the body raises, so what runs, once, is what the hook does
    with an exception at that point, and the exception that leaves the
    lifecycle is the one the hook ends with, if any.  Hence a teardown in the
    [finally] of a [try] around the [yield] runs once on every exit path and
    the exception goes on; a teardown that follows a handler catching the
    exception runs once and the exception is gone; a teardown that merely
    follows the [yield] runs once when the body ends normally and is skipped
    when the body raises. *)
Theorem lifespan_wrapper_resumes_hook_once_on_every_exit
    (c : code) (t : list event) (ks : gen) (kt : exn -> gen)
    (setup teardown served : list event) (failure : option exn) (v : exn) :
  call_cm c = GYield t ks kt ->
  _make_lifespan_for_router None = None /\
  _make_lifespan_for_router (Some c) = Some (installed c) /\
  lifecycle (installed c) served failure = lifecycle c served failure /\
  (forall t' r, finished ks = Some (t', r) ->
     lifecycle (installed c) served None = (t ++ served ++ t', r)) /\
  (forall t' r, finished (kt v) = Some (t', r) ->
     lifecycle (installed c) served (Some v) = (t ++ served ++ t', r)) /\
  lifecycle (installed (lifespan_of (guarded_hook setup teardown))) served failure
  = (setup ++ served ++ teardown, failure) /\
  lifecycle (installed (lifespan_of (caught_hook setup teardown))) served failure
  = (setup ++ served ++ teardown, None) /\
  lifecycle (installed (lifespan_of (plain_hook setup teardown))) served None
  = (setup ++ served ++ teardown, None) /\
  lifecycle (installed (lifespan_of (plain_hook setup teardown))) served (Some v)
  = (setup ++ served, Some v).
Proof.
  intros Hc.
  destruct (lifecycle_resumes_once c t ks kt served Hc) as [Hsend Hthrow].
  split; [reflexivity|]. split; [reflexivity|].
  split; [apply wrapper_passes_through|].
  split; [intros t' r Hf; rewrite wrapper_passes_through; now apply Hsend|].
  split; [intros t' r Hf; rewrite wrapper_passes_through; now apply Hthrow|].
  split; [rewrite wrapper_passes_through; apply guarded_hook_lifecycle|].
  split.
  { rewrite wrapper_passes_through.
    unfold lifecycle, lifespan_of, caught_hook, effects. cbn.
    rewrite app_nil_r. destruct failure; reflexivity. }
  split; rewrite wrapper_passes_through.
  - apply plain_hook_lifecycle_normal.
  - apply plain_hook_lifecycle_failure.
Qed.

Lemma lifespan_wrapper_resumes_hook_once_on_every_exit_witness :
  let c := lifespan_of (guarded_hook [1] [2]) in
  let v := Exception_ 0 in
  _make_lifespan_for_router None = None /\
  _make_lifespan_for_router (Some c) = Some (installed c) /\
  lifecycle (installed c) [10] (Some v) = lifecycle c [10] (Some v) /\
  (forall t' r, finished (GReturn [2]) = Some (t', r) ->
     lifecycle (installed c) [10] None = ([1] ++ [10] ++ t', r)) /\
  (forall t' r, finished (GRaise [2] v) = Some (t', r) ->
     lifecycle (installed c) [10] (Some v) = ([1] ++ [10] ++ t', r)) /\
  lifecycle (installed (lifespan_of (guarded_hook [1] [2]))) [10] (Some v)
  = ([1] ++ [10] ++ [2], Some v) /\
  lifecycle (installed (lifespan_of (caught_hook [1] [2]))) [10] (Some v)
  = ([1] ++ [10] ++ [2], None) /\
  lifecycle (installed (lifespan_of (plain_hook [1] [2]))) [10] None
  = ([1] ++ [10] ++ [2], None) /\
  lifecycle (installed (lifespan_of (plain_hook [1] [2]))) [10] (Some v)
  = ([1] ++ [10], Some v).
Proof.
  apply (lifespan_wrapper_resumes_hook_once_on_every_exit
           (lifespan_of (guarded_hook [1] [2])) [1] (GReturn [2])
           (fun x => GRaise [2] x) [1] [2] [10] (Some (Exception_ 0)) (Exception_ 0)).
  reflexivity.
Defined.

(** The lifespan test of the repository: the hook sets [lifespan_started]
    (event 1) before its [yield] and [lifespan_stopped] (event 2) in the
    [finally]; the router is mounted and the host is started and stopped
    without a request. *)
Example fastapi_lifespan_test :
  let w0 := mk_world lifespan_heap ([] : App) in
  let '(wrapped, w1) := LIFESPAN 1%positive w0 in
  match wrapped with
  | inr wrapped =>
      let r := mk_router (Some 3%positive) [("lifespan", wrapped)] in
      let '(res, w2) :=
        mount_router r (mk_include_kwargs "" None None None true []) w1 in
      res = inr tt /\
      match host w2 with
      | [(api_router, _)] =>
          match lifespan_context api_router with
          | Some ctx =>
              lifecycle ctx [] None = ([1; 2], None) /\
              lifecycle ctx [10] (Some (Exception_ 0)) = ([1; 10; 2], Some (Exception_ 0))
          | None => False
          end
      | _ => False
      end
  | inl _ => False
  end.
Proof. vm_compute. repeat split; reflexivity. Qed.

End LifespanClaim.

(** * Further properties of the adapters *)

(** ** Path composition for arbitrary segments (starlette) *)

Section PathSegments.
Import Py Starlette.





Lemma lstrip_fixed (s : string) : starts_with_slash s = false -> lstrip "/" s = s.
Proof.
  destruct s as [|c r]; [reflexivity|]. simpl. intros ->. reflexivity.
Qed.

Lemma rstrip_app_dropped (chars s t : string) :
  rstrip chars t = "" -> rstrip chars (s +:+ t) = rstrip chars s.
Proof.
  intros Ht. induction s as [|c r IH]; [exact Ht|].
  rewrite append_String. simpl. now rewrite IH.
Qed.

Lemma strip_router_prefix (k l : nat) (r : string) :
  lstrip "/" (rstrip "/" (slashes k +:+ r +:+ slashes l)) = lstrip "/" (rstrip "/" r).
Proof.
  rewrite <- append_assoc, rstrip_slashes.
  destruct (rstrip "/" r) as [|c r'] eqn:E.
  - rewrite (rstrip_app_dropped _ _ _ E), rstrip_only_slashes. reflexivity.
  - rewrite rstrip_app_kept by (rewrite E; discriminate).
    rewrite E. apply lstrip_slashes.
Qed.

(** X1: slashes added at the end of the mount prefix, on either side of the
    router prefix, and in front of the route or websocket path do not change
    the path [_get_path] composes, whatever the three segments are. *)
Theorem get_path_ignores_added_slashes (m r p : string) (j k l n : nat)
    (mw : option (list Middleware)) (rt : ROUTE) (x : WEBSOCKET) :
  _get_path (m +:+ slashes j) (mk_RouterSpec (slashes k +:+ r +:+ slashes l) mw)
            (inl (set_path (slashes n +:+ path rt) rt))
  = _get_path m (mk_RouterSpec r mw) (inl rt)
  /\ _get_path (m +:+ slashes j) (mk_RouterSpec (slashes k +:+ r +:+ slashes l) mw)
               (inr (set_ws_path (slashes n +:+ ws_path x) x))
     = _get_path m (mk_RouterSpec r mw) (inr x).
Proof.
  unfold _get_path. cbn [prefix spec_path set_path set_ws_path path ws_path].
  rewrite rstrip_slashes, strip_router_prefix, !lstrip_slashes. split; reflexivity.
Qed.

(** X2: a router prefix that is empty or made of slashes only contributes no
    segment: the path is the mount prefix without its trailing slashes, one
    slash, and the route path without its leading slashes. *)
Theorem get_path_without_router_prefix (m : string) (n : nat)
    (mw : option (list Middleware)) (s : ROUTE + WEBSOCKET) :
  _get_path m (mk_RouterSpec (slashes n) mw) s
  = rstrip "/" m +:+ "/" +:+ lstrip "/" (spec_path s).
Proof.
  unfold _get_path. cbn [prefix]. rewrite rstrip_only_slashes. reflexivity.
Qed.

(** X3: under a router decorated without a prefix and mounted without a
    prefix, a route declared at a path that starts with exactly one slash is
    registered at that very path. *)
Theorem get_path_of_bare_router_is_the_route_path (q : string)
    (mw : option (list Middleware)) (rt : ROUTE) :
  starts_with_slash q = false ->
  _get_path "" (mk_RouterSpec "" mw) (inl (set_path ("/" +:+ q) rt)) = "/" +:+ q.
Proof.
  intros Hq. unfold _get_path. cbn [prefix spec_path set_path path].
  change (lstrip "/" ("/" +:+ q)) with (lstrip "/" q).
  rewrite (lstrip_fixed _ Hq). reflexivity.
Qed.

Lemma get_path_of_bare_router_is_the_route_path_witness :
  _get_path "" (mk_RouterSpec "" None)
            (inl (set_path ("/" +:+ "openapi.json") (GET "/" no_kwargs)))
  = "/" +:+ "openapi.json".
Proof.
  apply (get_path_of_bare_router_is_the_route_path "openapi.json" None (GET "/" no_kwargs)).
  reflexivity.
Defined.



End PathSegments.

(** ** The three merge helpers *)

Section MergeHelpers.
Import Py.

(** X5: [concat] (starlette) has [None] as neutral element, is associative,
    returns [None] only when both arguments are [None], and keeps every
    element: the length of the result is the sum of the lengths. *)
Theorem concat_is_append_with_None_neutral {T} (a b c : option (list T)) :
  Starlette.concat None b = b /\
  Starlette.concat a None = a /\
  Starlette.concat (Starlette.concat a b) c = Starlette.concat a (Starlette.concat b c) /\
  (Starlette.concat a b = None <-> a = None /\ b = None) /\
  length (default [] (Starlette.concat a b))
  = length (default [] a) + length (default [] b).
Proof.
  split; [now destruct b|]. split; [now destruct a|].
  split; [destruct a, b, c; simpl; try reflexivity; now rewrite app_assoc|].
  split.
  - destruct a, b; simpl; (split; [intros E | intros [E1 E2]]); congruence || auto.
  - rewrite concat_as_lists. apply length_app.
Qed.

(** X6: [merge] (litestar) has [None] as neutral element and is associative;
    when both mappings are given the keys of the result are the keys of
    either, and merging a mapping with itself gives it back. *)
Theorem merge_is_overlay_with_None_neutral {V} (a b c : option (gmap Z V))
    (m1 m2 : gmap Z V) :
  Litestar.merge None b = b /\
  Litestar.merge a None = a /\
  Litestar.merge (Litestar.merge a b) c = Litestar.merge a (Litestar.merge b c) /\
  (exists m, Litestar.merge (Some m1) (Some m2) = Some m /\ dom m = dom m1 ∪ dom m2) /\
  Litestar.merge (Some m1) (Some m1) = Some m1.
Proof.
  split; [now destruct b|]. split; [now destruct a|].
  split.
  { destruct a as [a|], b as [b|], c as [c|]; simpl; try reflexivity.
    f_equal. apply (assoc_L (∪)). }
  split.
  - eexists. split; [reflexivity|]. rewrite dom_union_L. apply (comm_L (∪)).
  - simpl. f_equal. apply map_eq. intros k. rewrite lookup_union.
    now destruct (m1 !! k).
Qed.

(** X7: [concat_unique] (litestar) returns the other argument as it is, with
    its duplicates and in its order, when one argument is [None]; in every
    case the elements of the result are those of the two arguments; and the
    two orders of the arguments give the same elements the same number of
    times. *)
Theorem concat_unique_passes_single_argument_through (a b : option (list string))
    (l1 l2 : list string) :
  Litestar.concat_unique None b = b /\
  Litestar.concat_unique a None = a /\
  (forall x, x ∈ default [] (Litestar.concat_unique a b)
             <-> x ∈ default [] a \/ x ∈ default [] b) /\
  default [] (Litestar.concat_unique (Some l1) (Some l2))
  ≡ₚ default [] (Litestar.concat_unique (Some l2) (Some l1)).
Proof.
  split; [now destruct b|]. split; [now destruct a|].
  split; [intros x; apply concat_unique_elements|].
  simpl. apply NoDup_Permutation; try apply NoDup_elements.
  intros x. rewrite !elem_of_elements, !elem_of_union, !elem_of_list_to_set. tauto.
Qed.

End MergeHelpers.

(** ** More on decoration *)

Section MoreDecoration.
Import Py.
Context {R W S Host : Type}.
Implicit Types (w : world R W S Host).


(** X9: the two kinds of decorator do not interfere.  On a function object,
    [_set_route_spec] and then [_set_ws_route_spec] both succeed, each sets
    its own attribute and keeps the other, the code of the function and all
    other objects are kept, and the function is then discovered both as a
    route and as a websocket route. *)
Theorem route_and_websocket_attributes_are_independent
    (w : world R W S Host) (fn rs ws : loc) (f : func) :
  heap w !! fn = Some (OFunc f) ->
  exists w1 w2,
    _set_route_spec fn rs w = (inr tt, w1) /\
    _set_ws_route_spec fn ws w1 = (inr tt, w2) /\
    heap w2 !! fn = Some (OFunc (mk_func (fn_code f) (Some rs) (Some ws)
                                         (router_lifespan_attr f))) /\
    (forall l, l <> fn -> heap w2 !! l = heap w !! l) /\
    host w2 = host w /\
    (forall n sp,
       _find_routes_from_router (heap w2) (mk_router sp [(n, fn)]) = [(fn, rs)] /\
       _find_websocket_routes_from_router (heap w2) (mk_router sp [(n, fn)])
       = [(fn, ws)]).
Proof.
  intros Hf. eexists _, _.
  split; [unfold _set_route_spec, setattr_func; rewrite Hf; reflexivity|].
  split; [unfold _set_ws_route_spec, setattr_func; simpl;
          rewrite lookup_insert_eq; reflexivity|].
  simpl. split; [apply lookup_insert_eq|].
  split; [intros l Hl; now rewrite !lookup_insert_ne by congruence|].
  split; [reflexivity|].
  intros n sp.
  unfold _find_routes_from_router, _find_websocket_routes_from_router,
    route_spec_of, ws_route_spec_of. simpl.
  rewrite !lookup_insert_eq. split; reflexivity.
Qed.

End MoreDecoration.

Section MoreDecorationClaims.
Import Py.

Lemma route_and_websocket_attributes_are_independent_witness :
  exists w1 w2,
    _set_route_spec 1%positive 2%positive
      (mk_world undecorated_heap ([] : Starlette.App)) = (inr tt, w1) /\
    _set_ws_route_spec 1%positive 7%positive w1 = (inr tt, w2) /\
    heap w2 !! 1%positive
    = Some (OFunc (mk_func (Plain 0) (Some 2%positive) (Some 7%positive) false)) /\
    (forall l, l <> 1%positive -> heap w2 !! l = undecorated_heap !! l) /\
    host w2 = [] /\
    (forall n sp,
       _find_routes_from_router (heap w2) (mk_router sp [(n, 1%positive)])
       = [(1%positive, 2%positive)] /\
       _find_websocket_routes_from_router (heap w2) (mk_router sp [(n, 1%positive)])
       = [(1%positive, 7%positive)]).
Proof.
  apply (route_and_websocket_attributes_are_independent
           (mk_world undecorated_heap ([] : Starlette.App))
           1%positive 2%positive 7%positive (plain_func (Plain 0))).
  vm_compute. reflexivity.
Defined.



End MoreDecorationClaims.

(** ** More on discovery *)

Section MoreDiscovery.
Import Py.

Lemma find_tagged_sublist (f : loc -> option loc) members :
  (find_tagged f members).*1 `sublist_of` members.*2.
Proof.
  induction members as [|[n m] rest IH]; simpl; [constructor|].
  destruct (f m); simpl; [now apply sublist_skip | now apply sublist_cons].
Qed.

Context {R W S : Type}.

(** X10: discovery keeps the order of [inspect.getmembers]: the members
    found as routes, and those found as websocket routes, are each a
    subsequence of the members; and a member is found as a websocket route
    exactly with the object under its [__ws_route_spec__] attribute. *)
Theorem discovery_keeps_member_order (h : gmap loc (obj R W S)) (r : router) :
  (_find_routes_from_router h r).*1 `sublist_of` (getmembers r).*2 /\
  (_find_websocket_routes_from_router h r).*1 `sublist_of` (getmembers r).*2 /\
  (forall m sp, (m, sp) ∈ _find_websocket_routes_from_router h r
                <-> m ∈ (getmembers r).*2 /\ ws_route_spec_of h m = Some sp).
Proof.
  split; [apply find_tagged_sublist|]. split; [apply find_tagged_sublist|].
  intros; apply elem_of_find_tagged.
Qed.

End MoreDiscovery.

Section LifespanDiscovery.
Import Py FastAPI.

Lemma setattr_func_ok (w : World) fn f upd :
  heap w !! fn = Some (OFunc f) ->
  setattr_func fn upd w = (inr tt, set_heap (<[fn := OFunc (upd f)]> (heap w)) w).
Proof. intros H. unfold setattr_func. now rewrite H. Qed.

Lemma find_lifespan_in_None (h : gmap loc Obj) members :
  find_lifespan_in h members = None
  <-> Forall (fun e => has_router_lifespan h e.2 = false) members.
Proof.
  induction members as [|[n m] rest IH]; simpl.
  - split; [constructor | reflexivity].
  - destruct (has_router_lifespan h m) eqn:E.
    + split; [discriminate|]. intros H. inversion H; subst. simpl in *. congruence.
    + rewrite IH. split; [intros H; constructor; auto|].
      intros H; now inversion H.
Qed.

Lemma find_lifespan_in_Some (h : gmap loc Obj) members m :
  find_lifespan_in h members = Some m ->
  exists before n after,
    members = before ++ (n, m) :: after /\
    has_router_lifespan h m = true /\
    Forall (fun e => has_router_lifespan h e.2 = false) before.
Proof.
  induction members as [|[n m'] rest IH]; simpl; [discriminate|].
  destruct (has_router_lifespan h m') eqn:E.
  - intros [= <-]. exists [], n, rest. repeat split; auto.
  - intros H. destruct (IH H) as (before & n' & after & -> & Hm & Hb).
    exists ((n, m') :: before), n', after. repeat split; auto.
Qed.

(** X11: [_find_lifespan] returns the first member, in member order, that
    carries the lifespan marker, whatever comes after it, and returns [None]
    exactly when no member carries the marker. *)
Theorem find_lifespan_returns_first_marked_member (h : gmap loc Obj) (r : router) :
  (_find_lifespan h r = None
   <-> Forall (fun e => has_router_lifespan h e.2 = false) (getmembers r)) /\
  (forall m, _find_lifespan h r = Some m ->
     exists before n after,
       getmembers r = before ++ (n, m) :: after /\
       has_router_lifespan h m = true /\
       Forall (fun e => has_router_lifespan h e.2 = false) before).
Proof.
  split; [apply find_lifespan_in_None | intros m; apply find_lifespan_in_Some].
Qed.

(** X12: [LIFESPAN] leaves the method it is given as it was and returns a new
    function object: [asynccontextmanager] of the method's code, with the
    attributes of the method and the lifespan marker.  A class that binds the
    returned object has it discovered as its lifespan; the bare method, if it
    carried no marker, is not. *)
Theorem LIFESPAN_marks_a_new_function (w : World) (method : loc) (f : func) :
  heap w !! method = Some (OFunc f) ->
  let wrapped := fresh (dom (heap w)) in
  exists w',
    LIFESPAN method w = (inr wrapped, w') /\
    heap w !! wrapped = None /\
    heap w' !! wrapped = Some (OFunc (mk_func (AsyncCM (fn_code f)) (route_spec_attr f)
                                              (ws_route_spec_attr f) true)) /\
    (forall l, l <> wrapped -> heap w' !! l = heap w !! l) /\
    host w' = host w /\
    (forall n sp, _find_lifespan (heap w') (mk_router sp [(n, wrapped)]) = Some wrapped) /\
    (router_lifespan_attr f = false ->
     forall n sp, _find_lifespan (heap w') (mk_router sp [(n, method)]) = None).
Proof.
  intros Hf wrapped.
  assert (Hw : heap w !! wrapped = None) by apply fresh_lookup.
  assert (Hne : wrapped <> method) by congruence.
  eexists. split.
  { unfold LIFESPAN. rewrite Hf.
    erewrite bind_ok by reflexivity. fold wrapped.
    erewrite bind_ok by (unfold _set_router_lifespan_marker; apply setattr_func_ok;
                         simpl; apply lookup_insert_eq).
    reflexivity. }
  simpl. split; [exact Hw|].
  split; [apply lookup_insert_eq|].
  split; [intros l Hl; now rewrite !lookup_insert_ne by congruence|].
  split; [reflexivity|]. split.
  - intros n sp. unfold _find_lifespan. cbn [getmembers find_lifespan_in snd].
    unfold has_router_lifespan. now rewrite lookup_insert_eq.
  - intros Hm n sp. unfold _find_lifespan. cbn [getmembers find_lifespan_in snd].
    unfold has_router_lifespan.
    rewrite !lookup_insert_ne by congruence. now rewrite Hf, Hm.
Qed.

Lemma LIFESPAN_marks_a_new_function_witness :
  let w := mk_world lifespan_heap ([] : App) in
  let wrapped := fresh (dom (heap w)) in
  exists w',
    LIFESPAN 1%positive w = (inr wrapped, w') /\
    heap w !! wrapped = None /\
    heap w' !! wrapped
    = Some (OFunc (mk_func (AsyncCM (AsyncGenFn (guarded_hook [1] [2]))) None None true)) /\
    (forall l, l <> wrapped -> heap w' !! l = heap w !! l) /\
    host w' = host w /\
    (forall n sp, _find_lifespan (heap w') (mk_router sp [(n, wrapped)]) = Some wrapped) /\
    (false = false ->
     forall n sp, _find_lifespan (heap w') (mk_router sp [(n, 1%positive)]) = None).
Proof.
  apply (LIFESPAN_marks_a_new_function (mk_world lifespan_heap ([] : App)) 1%positive
           (plain_func (AsyncGenFn (guarded_hook [1] [2])))).
  vm_compute. reflexivity.
Defined.

End LifespanDiscovery.

(** ** What the heap operations do to the host *)

Section HostFrame.
Import Py.
Context {R W S Host : Type}.
Implicit Types (w : world R W S Host).

Lemma replace_host l w res w' : replace l w = (res, w') -> host w' = host w.
Proof.
  unfold replace, alloc.
  destruct (heap w !! l) as [[f|r|x|s|]|]; now inversion 1.
Qed.

Lemma update_route_host l upd w res w' :
  update_route l upd w = (res, w') -> host w' = host w.
Proof.
  unfold update_route. destruct (heap w !! l) as [[f|r|x|s|]|]; now inversion 1.
Qed.

Lemma update_websocket_host l upd w res w' :
  update_websocket l upd w = (res, w') -> host w' = host w.
Proof.
  unfold update_websocket. destruct (heap w !! l) as [[f|r|x|s|]|]; now inversion 1.
Qed.

Lemma update_router_spec_host l upd w res w' :
  update_router_spec l upd w = (res, w') -> host w' = host w.
Proof.
  unfold update_router_spec. destruct (heap w !! l) as [[f|r|x|s|]|]; now inversion 1.
Qed.

Lemma for_collect_host {A B} (body : A -> M (world R W S Host) B) :
  (forall x w res w', body x w = (res, w') -> host w' = host w) ->
  forall xs w res w', for_collect xs body w = (res, w') -> host w' = host w.
Proof.
  intros Hb xs. induction xs as [|x xs IH]; intros w res w' H; simpl in H.
  - now inversion H.
  - unfold bind in H. destruct (body x w) as [[e|y] w1] eqn:E.
    + inversion H; subst. eauto.
    + destruct (for_collect xs body w1) as [[e|ys] w2] eqn:E2;
        inversion H; subst; rewrite (IH _ _ _ E2); eauto.
Qed.

Lemma for_collect_same {A B} (body : A -> M (world R W S Host) B) :
  (forall x w res w', body x w = (res, w') -> w' = w) ->
  forall xs w res w', for_collect xs body w = (res, w') -> w' = w.
Proof.
  intros Hb xs. induction xs as [|x xs IH]; intros w res w' H; simpl in H.
  - now inversion H.
  - unfold bind in H. destruct (body x w) as [[e|y] w1] eqn:E.
    + inversion H; subst. eauto.
    + apply Hb in E as ->.
      destruct (for_collect xs body w) as [[e|ys] w2] eqn:E2;
        inversion H; subst; eauto.
Qed.

Lemma specs_well_typed_preserved (w w' : world R W S Host) r :
  preserved w w' ->
  specs_well_typed (heap w) r = true -> specs_well_typed (heap w') r = true.
Proof.
  intros Hp H. unfold specs_well_typed in *.
  rewrite (find_routes_preserved _ _ r Hp), (find_websocket_routes_preserved _ _ r Hp).
  apply andb_prop in H as [H1 H2]. apply andb_true_intro. split.
  - rewrite forallb_forall in *. intros e He. specialize (H1 e He).
    unfold is_route in *. destruct (heap w !! e.2) as [o|] eqn:E; [|discriminate].
    now rewrite (proj1 Hp _ _ E).
  - rewrite forallb_forall in *. intros e He. specialize (H2 e He).
    unfold is_websocket in *. destruct (heap w !! e.2) as [o|] eqn:E; [|discriminate].
    now rewrite (proj1 Hp _ _ E).
Qed.

End HostFrame.

(** ** More on mounting (starlette) *)

Section MoreStarlette.
Import Py Starlette.

Lemma starlette_mount_route_grows p sp e (w : World) res w' :
  mount_route p sp e w = (res, w') -> exists added, host w' = host w ++ added.
Proof.
  intros H. destruct e as [fn rl]. unfold mount_route in H.
  assert (Hnil : forall (w1 : World), host w1 = host w -> exists added,
                   host w1 = host w ++ added).
  { intros w1 ->. exists []. now rewrite app_nil_r. }
  bind_cases H l w1 E1; apply replace_host in E1; [auto|].
  bind_cases H s w2 E2; apply deref_router_spec_same in E2 as ->; [auto|].
  bind_cases H r w3 E3; apply deref_route_same in E3 as ->; [auto|].
  bind_cases H u w4 E4; apply update_route_host in E4; [apply Hnil; congruence|].
  bind_cases H r' w5 E5; apply deref_route_same in E5 as ->; [apply Hnil; congruence|].
  bind_cases H u' w6 E6; apply update_route_host in E6; [apply Hnil; congruence|].
  bind_cases H kw w7 E7; apply deref_route_same in E7 as ->; [apply Hnil; congruence|].
  inversion H; subst. simpl. exists [Route fn kw]. f_equal.
  etransitivity; [exact E6|]. etransitivity; [exact E4 | exact E1].
Qed.

Lemma starlette_mount_websocket_grows p sp e (w : World) res w' :
  mount_websocket p sp e w = (res, w') -> exists added, host w' = host w ++ added.
Proof.
  intros H. destruct e as [fn rl]. unfold mount_websocket in H.
  assert (Hnil : forall (w1 : World), host w1 = host w -> exists added,
                   host w1 = host w ++ added).
  { intros w1 ->. exists []. now rewrite app_nil_r. }
  bind_cases H l w1 E1; apply replace_host in E1; [auto|].
  bind_cases H s w2 E2; apply deref_router_spec_same in E2 as ->; [auto|].
  bind_cases H r w3 E3; apply deref_websocket_same in E3 as ->; [auto|].
  bind_cases H u w4 E4; apply update_websocket_host in E4; [apply Hnil; congruence|].
  bind_cases H kw w7 E7; apply deref_websocket_same in E7 as ->;
    [apply Hnil; congruence|].
  inversion H; subst. simpl. exists [WebSocketRoute fn kw]. f_equal.
  etransitivity; [exact E4 | exact E1].
Qed.

Lemma for_each_grows {A} (body : A -> M World unit) :
  (forall x w res w', body x w = (res, w') -> exists added, host w' = host w ++ added) ->
  forall xs w res w', for_each xs body w = (res, w') ->
                      exists added, host w' = host w ++ added.
Proof.
  intros Hb xs. induction xs as [|x xs IH]; intros w res w' H; simpl in H.
  - inversion H; subst. exists []. now rewrite app_nil_r.
  - unfold bind in H. destruct (body x w) as [[e|[]] w1] eqn:E.
    + inversion H; subst. eauto.
    + destruct (Hb _ _ _ _ E) as [a1 H1]. destruct (IH _ _ _ H) as [a2 H2].
      exists (a1 ++ a2). now rewrite H2, H1, app_assoc.
Qed.

End MoreStarlette.

Section MoreStarletteClaims.
Import Py Starlette.

(** X13: a successful starlette mount appends to the routes the host
    already has, first one route per discovered route and then one per
    discovered websocket route, each list in discovery order.  A route keeps
    the endpoint, name, methods and schema flag of its specification and gets
    the composed path; a websocket route keeps its name and gets the composed
    path. *)
Theorem starlette_mount_appends_routes_then_websockets
    (w : World) (r : router) (p : string) (sl : loc) (s : RouterSpec) :
  _find_router_spec r = Some sl ->
  heap w !! sl = Some (ORouterSpec s) ->
  specs_well_typed (heap w) r = true ->
  exists w' http ws,
    mount_router r p w = (inr tt, w') /\
    host w' = host w ++ http ++ ws /\
    Forall2 (fun e reg => exists rt kw,
               heap w !! e.2 = Some (ORoute rt) /\ reg = Route e.1 kw /\
               path kw = _get_path p s (inl rt) /\
               name kw = name rt /\ methods kw = methods rt /\
               include_in_schema kw = include_in_schema rt)
            (_find_routes_from_router (heap w) r) http /\
    Forall2 (fun e reg => exists x kw,
               heap w !! e.2 = Some (OWebsocket x) /\ reg = WebSocketRoute e.1 kw /\
               ws_path kw = _get_path p s (inr x) /\ ws_name kw = ws_name x)
            (_find_websocket_routes_from_router (heap w) r) ws.
Proof.
  intros Hr Hs Hwt.
  destruct (starlette_mount_router_ok r p sl s w Hr Hs Hwt)
    as (w' & http & ws & E & Hh & _ & Hreg & Hws).
  exists w', http, ws. split; [exact E|]. split; [exact Hh|]. split.
  - eapply Forall2_impl; [exact Hreg|].
    intros e reg (rt & Hrt & ->). exists rt. eexists.
    split; [exact Hrt|]. split; [reflexivity|]. simpl. auto.
  - eapply Forall2_impl; [exact Hws|].
    intros e reg (x & Hx & ->). exists x. eexists.
    split; [exact Hx|]. split; [reflexivity|]. simpl. auto.
Qed.

Lemma starlette_mount_appends_routes_then_websockets_witness :
  exists w' http ws,
    mount_router example_router "/api" (mk_world example_heap []) = (inr tt, w') /\
    host w' = [] ++ http ++ ws /\
    Forall2 (fun e reg => exists rt kw,
               example_heap !! e.2 = Some (ORoute rt) /\ reg = Route e.1 kw /\
               path kw = _get_path "/api" (mk_RouterSpec "/v1" (Some [5; 5])) (inl rt) /\
               name kw = name rt /\ methods kw = methods rt /\
               include_in_schema kw = include_in_schema rt)
            (_find_routes_from_router example_heap example_router) http /\
    Forall2 (fun e reg => exists x kw,
               example_heap !! e.2 = Some (OWebsocket x) /\ reg = WebSocketRoute e.1 kw /\
               ws_path kw = _get_path "/api" (mk_RouterSpec "/v1" (Some [5; 5])) (inr x) /\
               ws_name kw = ws_name x)
            (_find_websocket_routes_from_router example_heap example_router) ws.
Proof.
  apply (starlette_mount_appends_routes_then_websockets
           (mk_world example_heap []) example_router "/api" 3%positive
           (mk_RouterSpec "/v1" (Some [5; 5]))).
  - reflexivity.
  - vm_compute. reflexivity.
  - vm_compute. reflexivity.
Defined.

Lemma route_registered_functional (h h' : gmap loc Obj) p s es :
  (forall l o, h !! l = Some o -> h' !! l = Some o) ->
  forall regs regs',
    Forall2 (route_registered h p s) es regs ->
    Forall2 (route_registered h' p s) es regs' -> regs = regs'.
Proof.
  intros Hsub. induction es as [|e es IH]; intros regs regs' H1 H2.
  - inversion H1; inversion H2; reflexivity.
  - inversion H1 as [|? x ? xs (rt & Hrt & ->) Hxs]; subst.
    inversion H2 as [|? y ? ys (rt' & Hrt' & ->) Hys]; subst.
    apply Hsub in Hrt. rewrite Hrt in Hrt'. inversion Hrt'; subst.
    f_equal. now apply IH.
Qed.

Lemma websocket_registered_functional (h h' : gmap loc Obj) p s es :
  (forall l o, h !! l = Some o -> h' !! l = Some o) ->
  forall regs regs',
    Forall2 (websocket_registered h p s) es regs ->
    Forall2 (websocket_registered h' p s) es regs' -> regs = regs'.
Proof.
  intros Hsub. induction es as [|e es IH]; intros regs regs' H1 H2.
  - inversion H1; inversion H2; reflexivity.
  - inversion H1 as [|? x ? xs (rt & Hrt & ->) Hxs]; subst.
    inversion H2 as [|? y ? ys (rt' & Hrt' & ->) Hys]; subst.
    apply Hsub in Hrt. rewrite Hrt in Hrt'. inversion Hrt'; subst.
    f_equal. now apply IH.
Qed.

(** X14: mounting is not idempotent.  Mounting the same router twice with the
    same prefix succeeds twice and registers the same routes twice, the second
    batch after the first. *)
Theorem starlette_mount_twice_registers_twice
    (w : World) (r : router) (p : string) (sl : loc) (s : RouterSpec) :
  _find_router_spec r = Some sl ->
  heap w !! sl = Some (ORouterSpec s) ->
  specs_well_typed (heap w) r = true ->
  exists w1 w2 regs,
    mount_router r p w = (inr tt, w1) /\
    mount_router r p w1 = (inr tt, w2) /\
    host w1 = host w ++ regs /\
    host w2 = host w ++ regs ++ regs /\
    length regs = length (_find_routes_from_router (heap w) r)
                  + length (_find_websocket_routes_from_router (heap w) r).
Proof.
  intros Hr Hs Hwt.
  destruct (starlette_mount_router_ok r p sl s w Hr Hs Hwt)
    as (w1 & http & ws & E1 & Hh1 & Hp1 & Hreg1 & Hws1).
  destruct (starlette_mount_router_ok r p sl s w1 Hr (proj1 Hp1 _ _ Hs)
              (specs_well_typed_preserved _ _ _ Hp1 Hwt))
    as (w2 & http' & ws' & E2 & Hh2 & _ & Hreg2 & Hws2).
  rewrite (find_routes_preserved _ _ r Hp1) in Hreg2.
  rewrite (find_websocket_routes_preserved _ _ r Hp1) in Hws2.
  rewrite <- (route_registered_functional _ _ _ _ _ (proj1 Hp1) _ _ Hreg1 Hreg2) in Hh2.
  rewrite <- (websocket_registered_functional _ _ _ _ _ (proj1 Hp1) _ _ Hws1 Hws2) in Hh2.
  exists w1, w2, (http ++ ws). split; [exact E1|]. split; [exact E2|].
  split; [exact Hh1|]. split; [rewrite Hh2, Hh1; now rewrite <- !app_assoc|].
  rewrite length_app. f_equal.
  - symmetry. eapply Forall2_length. exact Hreg1.
  - symmetry. eapply Forall2_length. exact Hws1.
Qed.

Lemma starlette_mount_twice_registers_twice_witness :
  exists w1 w2 regs,
    mount_router example_router "/api" (mk_world example_heap []) = (inr tt, w1) /\
    mount_router example_router "/api" w1 = (inr tt, w2) /\
    host w1 = [] ++ regs /\
    host w2 = [] ++ regs ++ regs /\
    length regs = length (_find_routes_from_router example_heap example_router)
                  + length (_find_websocket_routes_from_router example_heap
                              example_router).
Proof.
  apply (starlette_mount_twice_registers_twice
           (mk_world example_heap []) example_router "/api" 3%positive
           (mk_RouterSpec "/v1" (Some [5; 5]))).
  - reflexivity.
  - vm_compute. reflexivity.
  - vm_compute. reflexivity.
Defined.

(** X15: whatever a starlette mount returns or raises, the routes the host
    had are still there, in place, and anything new comes after them; and a
    mount that raises part of the way is not undone: the routes registered
    before the failing one stay registered. *)
Theorem starlette_mount_only_appends (r : router) (p : string) (w : World)
    (res : exn + unit) (w' : World) :
  mount_router r p w = (res, w') ->
  (exists added, host w' = host w ++ added) /\
  (exists e w1,
     mount_router broken_router "/api" (mk_world broken_heap []) = (inl e, w1) /\
     length (host w1) = 1).
Proof.
  intros H. split.
  - unfold mount_router in H.
    bind_cases H members w1 E1; apply starlette_inspect_router_same in E1 as ->.
    { exists []. now rewrite app_nil_r. }
    bind_cases H l w2 E2; apply replace_host in E2.
    { exists []. rewrite app_nil_r. exact E2. }
    assert (Hroutes : forall res3 w3,
      for_each (routes members) (mount_route p l) w2 = (res3, w3) ->
      exists added, host w3 = host w ++ added).
    { intros res3 w3 E3.
      destruct (for_each_grows _ (starlette_mount_route_grows p l) _ _ _ _ E3) as [a Ha].
      exists a. rewrite Ha. f_equal. exact E2. }
    bind_cases H u w3 E3; [eauto|].
    destruct (Hroutes _ _ E3) as [a1 H1].
    destruct (for_each_grows _ (starlette_mount_websocket_grows p l) _ _ _ _ H)
      as [a2 H2].
    exists (a1 ++ a2). now rewrite H2, H1, app_assoc.
  - eexists _, _. split; [vm_compute; reflexivity | reflexivity].
Qed.

Lemma starlette_mount_only_appends_witness :
  (exists added,
     host (snd (mount_router example_router "/api" (mk_world example_heap [])))
     = [] ++ added) /\
  (exists e w1,
     mount_router broken_router "/api" (mk_world broken_heap []) = (inl e, w1) /\
     length (host w1) = 1).
Proof.
  apply (starlette_mount_only_appends example_router "/api" (mk_world example_heap [])
           (fst (mount_router example_router "/api" (mk_world example_heap [])))).
  vm_compute. reflexivity.
Defined.

End MoreStarletteClaims.

(** ** More on mounting (litestar) *)

Section MoreLitestar.
Import Py Litestar.

Lemma litestar_mount_route_host sp e (w : World) res w' :
  mount_route sp e w = (res, w') -> host w' = host w.
Proof.
  intros H. destruct e as [fn rl]. unfold mount_route in H.
  bind_cases H l w1 E1; apply replace_host in E1; [exact E1|].
  bind_cases H s w2 E2; apply deref_router_spec_same in E2 as ->; [exact E1|].
  bind_cases H r w3 E3; apply deref_route_same in E3 as ->; [exact E1|].
  bind_cases H u w4 E4; apply update_route_host in E4; [congruence|].
  bind_cases H r' w5 E5; apply deref_route_same in E5 as ->; [congruence|].
  bind_cases H s' w6 E6; apply deref_router_spec_same in E6 as ->; [congruence|].
  inversion H; subst. congruence.
Qed.

Lemma litestar_mount_websocket_same e (w : World) res w' :
  mount_websocket e w = (res, w') -> w' = w.
Proof.
  intros H. destruct e as [fn rl]. unfold mount_websocket in H.
  bind_cases H x w1 E1; apply deref_websocket_same in E1 as ->; [reflexivity|].
  now inversion H.
Qed.

Lemma litestar_mount_host_on_failure
    (r : router) (p : string) (mr : option (gmap Z ResponseSpec))
    (mt : option (list string)) (inc : option bool) (w : World) res (w' : World) :
  mount_router r p mr mt inc w = (res, w') ->
  forall e, res = inl e -> host w' = host w.
Proof.
  intros H e0 He. unfold mount_router in H.
  bind_cases H members w1 E1; apply litestar_inspect_router_same in E1 as ->;
    [reflexivity|].
  bind_cases H l w2 E2; apply replace_host in E2; [exact E2|].
  bind_cases H s w3 E3; apply deref_router_spec_same in E3 as ->; [exact E2|].
  bind_cases H u w4 E4; apply update_router_spec_host in E4; [congruence|].
  bind_cases H s' w5 E5; apply deref_router_spec_same in E5 as ->; [congruence|].
  bind_cases H u' w6 E6; apply update_router_spec_host in E6; [congruence|].
  assert (Hprefix : forall res7 w7,
    (if truthy p
     then let! s := deref_router_spec l in
          update_router_spec l (set_prefix (join_prefix p (prefix s)))
     else ret tt) w6 = (res7, w7) -> host w7 = host w6).
  { intros res7 w7 H7. destruct (truthy p).
    - bind_cases H7 s7 w7' E7; apply deref_router_spec_same in E7 as ->; [reflexivity|].
      now apply update_router_spec_host in H7.
    - now inversion H7. }
  bind_cases H u7 w7 E7; apply Hprefix in E7; [congruence|].
  assert (Hinc : forall res8 w8,
    (match inc with
     | Some _ => update_router_spec l (set_spec_include_in_schema inc)
     | None => ret tt
     end) w7 = (res8, w8) -> host w8 = host w7).
  { intros res8 w8 H8. destruct inc.
    - now apply update_router_spec_host in H8.
    - now inversion H8. }
  bind_cases H u8 w8 E8; apply Hinc in E8; [congruence|].
  bind_cases H s9 w9 E9; apply deref_router_spec_same in E9 as ->; [congruence|].
  bind_cases H http w10 E10;
    apply (for_collect_host _ (litestar_mount_route_host l)) in E10; [congruence|].
  bind_cases H ws w11 E11;
    apply (for_collect_same _ litestar_mount_websocket_same) in E11 as ->; [congruence|].
  inversion H; subst. discriminate.
Qed.


(** X16: a litestar mount that raises has registered nothing: the routers
    registered on the application are the ones it had.  The single call to
    [app.register] comes last, after every step that can raise. *)
Theorem litestar_failed_mount_registers_nothing
    (r : router) (p : string) (mr : option (gmap Z ResponseSpec))
    (mt : option (list string)) (inc : option bool) (w : World) (e : exn) (w' : World) :
  mount_router r p mr mt inc w = (inl e, w') -> host w' = host w.
Proof.
  intros H. exact (litestar_mount_host_on_failure r p mr mt inc w _ w' H e eq_refl).
Qed.

Lemma litestar_failed_mount_registers_nothing_witness :
  host (snd (mount_router broken_router "/api" None None None
               (mk_world litestar_broken_heap [])))
  = [].
Proof.
  apply (litestar_failed_mount_registers_nothing broken_router "/api" None None None
           (mk_world litestar_broken_heap [])
           (TypeError "replace() should be called on dataclass instances")).
  vm_compute. reflexivity.
Defined.

(** X17: a successful litestar mount registers exactly one router.  Its path
    is the router's own prefix, as written, when the mount prefix is empty,
    and the joined prefix otherwise; [include_in_schema] is the mount
    argument when one is given and the router's otherwise; its tags are the
    merged tags; its other options are those of the router specification as
    [dataclasses.asdict] returns them, an option that is an instance of a
    dataclass having become the dictionary of its fields.  Its handlers are
    the HTTP handlers in discovery order followed by the websocket handlers.
    An HTTP handler gets the path, method, name, status code, flag and tags
    of its route specification and its other options as [asdict] returns
    them; a websocket handler gets the path and name of its specification as
    written. *)
Theorem litestar_mount_registers_one_router
    (w : World) (r : router) (p : string) (mr : option (gmap Z ResponseSpec))
    (mt : option (list string)) (inc : option bool) (sl : loc) (s : RouterSpec) :
  _find_router_spec r = Some sl ->
  heap w !! sl = Some (ORouterSpec s) ->
  specs_well_typed (heap w) r = true ->
  exists w' api_router http ws,
    mount_router r p mr mt inc w = (inr tt, w') /\
    host w' = host w ++ [api_router] /\
    router_path api_router = (if truthy p then join_prefix p (prefix s) else prefix s) /\
    opt_include_in_schema (options api_router)
    = match inc with Some b => Some b | None => spec_include_in_schema s end /\
    opt_tags (options api_router) = concat_unique mt (spec_tags s) /\
    opt_other (options api_router) = asdict_items (spec_other s) /\
    route_handlers api_router = http ++ ws /\
    Forall2 (fun e hd => exists rt kw,
               heap w !! e.2 = Some (ORoute rt) /\
               hd = HTTPRouteHandler e.1 kw /\ route_options_passed rt kw)
            (_find_routes_from_router (heap w) r) http /\
    Forall2 (fun e hd => exists x,
               heap w !! e.2 = Some (OWebsocket x) /\
               hd = WebsocketRouteHandler e.1 (ws_path x) (ws_name x))
            (_find_websocket_routes_from_router (heap w) r) ws.
Proof.
  intros Hr Hs Hwt.
  destruct (litestar_mount_router_ok r p mr mt inc sl s w Hr Hs Hwt)
    as (w' & http & ws & E & Hh & _ & Hhttp & Hws).
  eexists w', _, http, ws. split; [exact E|]. split; [exact Hh|].
  split; [reflexivity|]. split; [simpl; now destruct inc|].
  split; [reflexivity|]. split; [reflexivity|]. split; [reflexivity|].
  split; [|exact Hws].
  eapply Forall2_impl; [exact Hhttp|].
  intros e hd (rt & Hrt & ->). eexists rt, _. split; [exact Hrt|].
  split; [reflexivity|]. repeat split.
Qed.

Lemma litestar_mount_registers_one_router_witness :
  exists w' api_router http ws,
    mount_router example_router "/api/" (Some caller_401) (Some ["b"; "c"]) (Some false)
                 (mk_world litestar_options_heap []) = (inr tt, w') /\
    host w' = [] ++ [api_router] /\
    router_path api_router = "/api/v1" /\
    opt_include_in_schema (options api_router) = Some false /\
    opt_tags (options api_router) = concat_unique (Some ["b"; "c"]) (Some ["a"; "b"]) /\
    opt_other (options api_router) = [("cache_control", PyDict [("max_age", PyAtom 30)])] /\
    route_handlers api_router = http ++ ws /\
    Forall2 (fun e hd => exists rt kw,
               litestar_options_heap !! e.2 = Some (ORoute rt) /\
               hd = HTTPRouteHandler e.1 kw /\ route_options_passed rt kw)
            [(1%positive, 2%positive)] http /\
    Forall2 (fun e hd => exists x,
               litestar_options_heap !! e.2 = Some (OWebsocket x) /\
               hd = WebsocketRouteHandler e.1 (ws_path x) (ws_name x))
            [(4%positive, 5%positive)] ws.
Proof.
  apply (litestar_mount_registers_one_router
           (mk_world litestar_options_heap []) example_router "/api/" (Some caller_401)
           (Some ["b"; "c"]) (Some false) 3%positive
           (mk_RouterSpec "/v1" None (Some ["a"; "b"]) (Some router_401)
              [("cache_control", PyInstance 0 [("max_age", PyAtom 30)])])).
  - reflexivity.
  - vm_compute. reflexivity.
  - vm_compute. reflexivity.
Defined.

End MoreLitestar.

(** ** More on mounting (fastapi) *)

Section MoreFastAPI.
Import Py Async FastAPI.

Lemma add_api_route_same e (w : World) res w' : add_api_route e w = (res, w') -> w' = w.
Proof.
  intros H. destruct e as [fn rl]. unfold add_api_route in H.
  bind_cases H x w1 E1; apply deref_route_same in E1 as ->; [reflexivity|].
  now inversion H.
Qed.

Lemma add_api_websocket_route_same e (w : World) res w' :
  add_api_websocket_route e w = (res, w') -> w' = w.
Proof.
  intros H. destruct e as [fn rl]. unfold add_api_websocket_route in H.
  bind_cases H x w1 E1; apply deref_websocket_same in E1 as ->; [reflexivity|].
  now inversion H.
Qed.

(** X18: a fastapi mount never writes to the heap, whatever it returns or
    raises, and when it raises it has not called the host either: the world is
    the one it was given. *)
Theorem fastapi_mount_never_writes_the_heap
    (r : router) (kw : include_kwargs) (w : World) (res : exn + unit) (w' : World) :
  mount_router r kw w = (res, w') ->
  heap w' = heap w /\ (forall e, res = inl e -> w' = w).
Proof.
  intros H. unfold mount_router in H.
  bind_cases H members w1 E1; apply fastapi_inspect_router_same in E1 as ->; [auto|].
  bind_cases H w0 w2 E2; [inversion E2 | inversion E2; subst].
  bind_cases H s w3 E3; apply deref_router_spec_same in E3 as ->; [auto|].
  bind_cases H http w4 E4;
    apply (for_collect_same _ add_api_route_same) in E4 as ->; [auto|].
  bind_cases H ws w5 E5;
    apply (for_collect_same _ add_api_websocket_route_same) in E5 as ->; [auto|].
  inversion H; subst. split; [reflexivity | discriminate].
Qed.

Lemma fastapi_mount_never_writes_the_heap_witness :
  fst (mount_router broken_router (mk_include_kwargs "/api" None None None true [])
         (mk_world fastapi_broken_heap []))
  = inl (TypeError "not a route specification") /\
  heap (snd (mount_router broken_router (mk_include_kwargs "/api" None None None true [])
               (mk_world fastapi_broken_heap [])))
  = fastapi_broken_heap /\
  (forall e,
     fst (mount_router broken_router (mk_include_kwargs "/api" None None None true [])
            (mk_world fastapi_broken_heap [])) = inl e ->
     snd (mount_router broken_router (mk_include_kwargs "/api" None None None true [])
            (mk_world fastapi_broken_heap []))
     = mk_world fastapi_broken_heap []).
Proof.
  split; [vm_compute; reflexivity|].
  apply (fastapi_mount_never_writes_the_heap broken_router
           (mk_include_kwargs "/api" None None None true [])
           (mk_world fastapi_broken_heap [])).
  vm_compute. reflexivity.
Defined.

(** X19: a successful fastapi mount makes exactly one [include_router] call,
    with the keyword arguments of the mount call as given.  The router it
    includes was built from the attached router specification as
    [dataclasses.asdict] returns it (the prefix is not joined by the adapter;
    a response or option that is an instance of a dataclass has become the
    dictionary of its fields); its lifespan is the wrapper around the first
    member that carries the lifespan marker, and there is none when no
    member carries it; it holds one route per discovered route, in discovery
    order, with the fields of the route specification as [asdict] returns
    them, followed by one websocket route per discovered websocket route with
    the path and name declared. *)
Theorem fastapi_mount_includes_one_router
    (w : World) (r : router) (kw : include_kwargs) (sl : loc) (s : RouterSpec) :
  _find_router_spec r = Some sl ->
  heap w !! sl = Some (ORouterSpec s) ->
  specs_well_typed (heap w) r = true ->
  exists w' api_router http ws,
    mount_router r kw w = (inr tt, w') /\
    host w' = host w ++ [(api_router, kw)] /\
    router_kwargs api_router = asdict_spec s /\
    lifespan_context api_router
    = (fun m => installed (callable (heap w) m)) <$> _find_lifespan (heap w) r /\
    api_routes api_router = http ++ ws /\
    Forall2 (fun e reg => exists rt,
               heap w !! e.2 = Some (ORoute rt) /\ reg = api_route e.1 (asdict_route rt))
            (_find_routes_from_router (heap w) r) http /\
    Forall2 (fun e reg => exists x,
               heap w !! e.2 = Some (OWebsocket x) /\ reg = api_websocket_route e.1 x)
            (_find_websocket_routes_from_router (heap w) r) ws.
Proof.
  intros Hr Hs Hwt.
  destruct (fastapi_mount_router_ok r kw sl s w Hr Hs Hwt) as (http & ws & E & Hhttp & Hws).
  eexists _, _, http, ws. split; [exact E|]. split; [reflexivity|].
  split; [reflexivity|]. split.
  - simpl. destruct (_find_lifespan (heap w) r); reflexivity.
  - split; [reflexivity|]. split; assumption.
Qed.

Lemma fastapi_mount_includes_one_router_witness :
  exists w' api_router http ws,
    mount_router fastapi_router (mk_include_kwargs "/v2" None None None true [])
                 (mk_world fastapi_heap []) = (inr tt, w') /\
    host w' = [] ++ [(api_router, mk_include_kwargs "/v2" None None None true [])] /\
    router_kwargs api_router
    = mk_RouterSpec "/api" (Some ["test"]) None None true
        [("dependencies",
          PyList [PyDict [("dependency", PyAtom 8); ("use_cache", PyAtom 1)]])] /\
    lifespan_context api_router = Some (installed (lifespan_of (guarded_hook [1] [2]))) /\
    api_routes api_router = http ++ ws /\
    Forall2 (fun e reg => exists rt,
               fastapi_heap !! e.2 = Some (ORoute rt) /\
               reg = api_route e.1 (asdict_route rt))
            [(1%positive, 2%positive)] http /\
    Forall2 (fun e reg => exists x,
               fastapi_heap !! e.2 = Some (OWebsocket x) /\
               reg = api_websocket_route e.1 x)
            [(4%positive, 5%positive)] ws.
Proof.
  apply (fastapi_mount_includes_one_router (mk_world fastapi_heap []) fastapi_router
           (mk_include_kwargs "/v2" None None None true []) 3%positive
           (mk_RouterSpec "/api" (Some ["test"]) None None true
              [("dependencies",
                PyList [PyInstance 0 [("dependency", PyAtom 8);
                                      ("use_cache", PyAtom 1)]])])).
  - reflexivity.
  - vm_compute. reflexivity.
  - vm_compute. reflexivity.
Defined.

End MoreFastAPI.

